(** * mcp-nextflow: target discovery, validation and command dispatch

    A shallow embedding of [src/mcp-nextflow.py].  Python [str] values are
    lists of Unicode code points ([N]); the regular expression used by
    [get_makefile_targets] is run by a small backtracking matcher that
    follows the behaviour of Python's [re] module on the constructs the
    pattern uses; the tools are written in a state-and-exception monad
    over the process-wide [NEXTFLOW_DIR] and a record of what the
    operating system answers (files, directories, child processes).

    Calls to [logger.*] and [ctx.*] only emit log records, return [None]
    and never influence control flow; they are left out of the model. *)

From Stdlib Require Import String Ascii.
From Stdlib Require Import List NArith ZArith Bool Lia Arith.
From Stdlib Require Import Permutation Sorted.
Import ListNotations.

Set Implicit Arguments.

(** ** Strings *)

(** A Python [str]: a sequence of code points. *)
Definition char := N.
Definition str := list char.

(** A literal written in ASCII. *)
Fixpoint u (s : string) : str :=
  match s with
  | EmptyString => []
  | String a s' => N_of_ascii a :: u s'
  end.

Definition NL : char := 10%N.
Definition COLON : char := 58%N.
Definition HASH : char := 35%N.

Definition str_eq_dec : forall a b : str, {a = b} + {a <> b} :=
  list_eq_dec N.eq_dec.

Definition str_eqb (a b : str) : bool :=
  if str_eq_dec a b then true else false.

(** [x in xs] on a list of strings. *)
Definition mem (x : str) (xs : list str) : bool :=
  existsb (str_eqb x) xs.

(** [sep.join(xs)] *)
Fixpoint join (sep : str) (xs : list str) : str :=
  match xs with
  | [] => []
  | [x] => x
  | x :: xs' => x ++ sep ++ join sep xs'
  end.

(** [a.startswith(b)] and [a.endswith(b)] *)
Fixpoint startswith (a b : str) : bool :=
  match b, a with
  | [], _ => true
  | y :: b', x :: a' => N.eqb x y && startswith a' b'
  | _ :: _, [] => false
  end.

Definition endswith (a b : str) : bool := startswith (rev a) (rev b).

(** Decimal digits of a positive number, least significant first;
    [fuel] bounds the number of digits. *)
Fixpoint digits_rev (fuel : nat) (n : N) : str :=
  match fuel with
  | O => []
  | S fuel' =>
      let d := (48 + n mod 10)%N in
      if (n <? 10)%N then [d] else d :: digits_rev fuel' (n / 10)%N
  end.

(** [str(n)] for an [int] *)
Definition str_of_Z (z : Z) : str :=
  let n := Z.abs_N z in
  let ds := rev (digits_rev (S (N.to_nat (N.log2 n))) n) in
  if (z <? 0)%Z then 45%N :: ds else ds.

(** Code points compare as numbers, strings lexicographically. *)
Fixpoint str_leb (a b : str) : bool :=
  match a, b with
  | [], _ => true
  | _ :: _, [] => false
  | x :: a', y :: b' =>
      if (x <? y)%N then true
      else if (y <? x)%N then false
      else str_leb a' b'
  end.

Fixpoint insert_sorted (x : str) (xs : list str) : list str :=
  match xs with
  | [] => [x]
  | y :: ys => if str_leb x y then x :: y :: ys else y :: insert_sorted x ys
  end.

(** [sorted(xs)] on strings: ascending; equal strings are
    indistinguishable, so any sorting algorithm gives the same list. *)
Definition sorted (xs : list str) : list str :=
  fold_right insert_sorted [] xs.

(** [Py_UNICODE_ISSPACE]: what [\s] matches in a [str] pattern and what
    [str.split()] and [str.strip()] treat as white space. *)
Definition is_space (c : char) : bool :=
  ((9 <=? c) && (c <=? 13) || (28 <=? c) && (c <=? 32)
   || (c =? 133) || (c =? 160) || (c =? 5760)
   || (8192 <=? c) && (c <=? 8202)
   || (c =? 8232) || (c =? 8233) || (c =? 8239) || (c =? 8287)
   || (c =? 12288))%N.

(** The class [[a-zA-Z0-9_-]]. *)
Definition is_name (c : char) : bool :=
  ((97 <=? c) && (c <=? 122) || (65 <=? c) && (c <=? 90)
   || (48 <=? c) && (c <=? 57) || (c =? 95) || (c =? 45))%N.

(** [.] without DOTALL: anything but a newline. *)
Definition is_dot (c : char) : bool := negb (c =? NL)%N.

(** [s.split()]: the maximal runs of non-space characters. *)
Fixpoint split_ws_aux (s : str) (cur : str) : list str :=
  match s with
  | [] => match cur with [] => [] | _ => [rev cur] end
  | c :: s' =>
      if is_space c
      then match cur with
           | [] => split_ws_aux s' []
           | _ => rev cur :: split_ws_aux s' []
           end
      else split_ws_aux s' (c :: cur)
  end.

Definition split_ws (s : str) : list str := split_ws_aux s [].

Fixpoint lstrip (s : str) : str :=
  match s with
  | c :: s' => if is_space c then lstrip s' else s
  | [] => []
  end.

(** [s.strip()] *)
Definition strip (s : str) : str := rev (lstrip (rev (lstrip s))).

(** [os.path.join(a, b)] of [posixpath], two arguments. *)
Definition path_join (a b : str) : str :=
  if startswith b (u "/") then b
  else if match a with [] => true | _ => endswith a (u "/") end then a ++ b
  else a ++ u "/" ++ b.

(** The lines of a text, as [^] and [$] see them under [re.MULTILINE]:
    the pieces between newline characters. *)
Fixpoint lines (s : str) : list str :=
  match s with
  | [] => [[]]
  | c :: s' =>
      if (c =? NL)%N then [] :: lines s'
      else match lines s' with
           | l :: ls => (c :: l) :: ls
           | [] => [[c]]
           end
  end.

(** ** Regular expressions, as [re] runs them *)

Module Re.

(** The constructs the pattern of [get_makefile_targets] uses.  The two
    repetitions range over a single-character class, like [\s*],
    [.*] and [[a-zA-Z0-9_-]+]. *)
Inductive regex :=
| Bol                            (* ^ under MULTILINE *)
| Eol                            (* $ under MULTILINE *)
| Lit (c : char)                 (* a literal character *)
| Star (p : char -> bool)        (* X*, greedy *)
| Plus (p : char -> bool)        (* X+, greedy *)
| Opt (r : regex)                (* (?:r)?, greedy *)
| Cap (r : regex)                (* (r), capturing group 1 *)
| Seq (r1 r2 : regex).

(** Where the matcher stands: the character just before the position
    ([None] at the start of the text), the text still ahead, and what
    group 1 holds. *)
Record mstate := MState {
  prev : option char;
  rest : str;
  grp : option str
}.

Definition at_bol (st : mstate) : bool :=
  match prev st with
  | None => true
  | Some c => (c =? NL)%N
  end.

Definition at_eol (st : mstate) : bool :=
  match rest st with
  | [] => true
  | c :: _ => (c =? NL)%N
  end.

Section Matcher.
Variable R : Type.

(** Greedy repetition of a character class: take as many characters as
    the class allows, then give them back one at a time until what
    follows the repetition succeeds. *)
Fixpoint star (p : char -> bool) (pv : option char) (s : str) (g : option str)
         (k : mstate -> option R) : option R :=
  match s with
  | c :: s' =>
      if p c
      then match star p (Some c) s' g k with
           | Some x => Some x
           | None => k (MState pv s g)
           end
      else k (MState pv s g)
  | [] => k (MState pv s g)
  end.

(** [rmatch r st k]: match [r] at [st], then run what follows, [k];
    [None] when every way of matching [r] makes [k] fail. *)
Fixpoint rmatch (r : regex) (st : mstate) (k : mstate -> option R) : option R :=
  match r with
  | Bol => if at_bol st then k st else None
  | Eol => if at_eol st then k st else None
  | Lit c =>
      match rest st with
      | x :: s' => if (x =? c)%N then k (MState (Some x) s' (grp st)) else None
      | [] => None
      end
  | Star p => star p (prev st) (rest st) (grp st) k
  | Plus p =>
      match rest st with
      | x :: s' => if p x then star p (Some x) s' (grp st) k else None
      | [] => None
      end
  | Opt r' =>
      match rmatch r' st k with
      | Some x => Some x
      | None => k st
      end
  | Cap r' =>
      rmatch r' st (fun st' =>
        k (MState (prev st') (rest st')
             (Some (firstn (length (rest st) - length (rest st')) (rest st)))))
  | Seq r1 r2 => rmatch r1 st (fun st' => rmatch r2 st' k)
  end.
End Matcher.

(** [pattern.match] at one position: the state at the end of the match. *)
Definition match_at (r : regex) (pv : option char) (s : str) : option mstate :=
  rmatch r (MState pv s None) (fun st => Some st).

(** What [findall] reports for a match of a pattern with one group: the
    text of the group, empty when the group took no part. *)
Definition group1 (st : mstate) : str :=
  match grp st with
  | Some g => g
  | None => []
  end.

(** The scan of [findall]: try each position from left to right; after a
    match go on from its end; a position at the very end of the text is
    tried too.  A match of [target_pattern] is never empty; for an empty
    match the scan here moves one character further.  Every round moves
    at least one character ahead, so [fuel] above the length of the text
    is never used up. *)
Fixpoint findall_from (fuel : nat) (r : regex) (pv : option char) (s : str) : list str :=
  match fuel with
  | O => []
  | S fuel' =>
      let step := match s with
                  | [] => []
                  | c :: s' => findall_from fuel' r (Some c) s'
                  end in
      match match_at r pv s with
      | Some st' =>
          group1 st' ::
            (if length (rest st') <? length s
             then findall_from fuel' r (prev st') (rest st')
             else step)
      | None => step
      end
  end.

(** [re.findall(r, s, re.MULTILINE)] *)
Definition findall (r : regex) (s : str) : list str :=
  findall_from (S (length s)) r None s.

End Re.

(** [target_pattern] of [get_makefile_targets], piece by piece: [^],
    group 1 holding [[a-zA-Z0-9_-]+], a colon, [\s*], an optional
    non-capturing group made of [#] and [.*], and [$]. *)
Definition target_pattern : Re.regex :=
  Re.Seq Re.Bol
    (Re.Seq (Re.Cap (Re.Plus is_name))
       (Re.Seq (Re.Lit COLON)
          (Re.Seq (Re.Star is_space)
             (Re.Seq (Re.Opt (Re.Seq (Re.Lit HASH) (Re.Star is_dot)))
                Re.Eol)))).

(** ** The server's state, the outside world, and effects *)

(** [subprocess.CompletedProcess] as the tools read it. *)
Record CompletedProcess := {
  returncode : Z;
  stdout : str;
  stderr : str
}.

(** A Python call either returns or raises; of an exception only
    [str(e)] is ever looked at, and all of them are [Exception]s. *)
Inductive result (A : Type) :=
| Ret (a : A)
| Raise (msg : str).
Arguments Raise {A} msg.

(** What the operating system answers during one tool call. *)
Record World := {
  expanduser : str -> str;                        (* os.path.expanduser *)
  isdir : str -> bool;                            (* os.path.isdir *)
  isfile : str -> bool;                           (* os.path.isfile *)
  read_text : str -> result str;                  (* open(p, "r") and f.read() *)
  subprocess_run : list str -> str -> result CompletedProcess
                                                  (* argv, cwd; capture_output, text *)
}.

(** The global [NEXTFLOW_DIR], and the calls of [subprocess.run] made so
    far, oldest first, each with its argument vector and working
    directory. *)
Record State := {
  NEXTFLOW_DIR : str;
  invoked : list (list str * str)
}.

Definition M (A : Type) : Type := State -> result A * State.

Definition ret {A} (a : A) : M A := fun s => (Ret a, s).

Definition bind {A B} (c : M A) (f : A -> M B) : M B :=
  fun s =>
    match c s with
    | (Ret a, s') => f a s'
    | (Raise e, s') => (Raise e, s')
    end.

Notation "x <- c ;; k" := (bind c (fun x => k))
  (at level 61, c at next level, right associativity).

(** [try: body except Exception as e: handler(str(e))] *)
Definition try_except {A} (body : M A) (handler : str -> M A) : M A :=
  fun s =>
    match body s with
    | (Ret a, s') => (Ret a, s')
    | (Raise e, s') => handler e s'
    end.

Definition lift {A} (r : result A) : M A := fun s => (r, s).

Definition get_dir : M str := fun s => (Ret (NEXTFLOW_DIR s), s).

Definition set_dir (d : str) : M unit :=
  fun s => (Ret tt, {| NEXTFLOW_DIR := d; invoked := invoked s |}).

Section Tools.
Variable w : World.

(** [subprocess.run(argv, capture_output=True, text=True, cwd=cwd)] *)
Definition run (argv : list str) (cwd : str) : M CompletedProcess :=
  fun s =>
    (subprocess_run w argv cwd,
     {| NEXTFLOW_DIR := NEXTFLOW_DIR s; invoked := invoked s ++ [(argv, cwd)] |}).

Definition get_makefile_targets : M (list str) :=
  dir <- get_dir ;;
  let makefile_path := path_join dir (u "Makefile") in
  if negb (isfile w makefile_path) then ret []
  else
    try_except
      (content <- lift (read_text w makefile_path) ;;
       let targets := Re.findall target_pattern content in
       ret targets)
      (fun _ => ret []).

(** ["\n".join(f"- {target}" for target in sorted(targets))] *)
Definition bullet_list (targets : list str) : str :=
  join [NL] (map (fun target => u "- " ++ target) (sorted targets)).

Definition list_make_targets : M str :=
  targets <- get_makefile_targets ;;
  match targets with
  | [] =>
      dir <- get_dir ;;
      ret (u "Could not find any make targets in " ++ dir
           ++ u "/Makefile. Please check if the Nextflow directory is set correctly.")
  | _ => ret (u "Available make targets:" ++ [NL] ++ bullet_list targets)
  end.

Definition set_nextflow_directory (path : str) : M str :=
  let expanded_path := expanduser w path in
  if negb (isdir w expanded_path)
  then ret (u "Error: Directory '" ++ expanded_path ++ u "' does not exist.")
  else if negb (isfile w (path_join expanded_path (u "Makefile"))
                || isfile w (path_join expanded_path (u "build.gradle")))
  then
    let warning_msg := u "Warning: '" ++ expanded_path
                       ++ u "' might not be a Nextflow repository. Setting anyway." in
    _ <- set_dir expanded_path ;;
    ret warning_msg
  else
    _ <- set_dir expanded_path ;;
    dir <- get_dir ;;
    ret (u "Nextflow directory set to: " ++ dir).

Definition get_nextflow_directory : M str :=
  dir <- get_dir ;;
  ret (u "Current Nextflow directory: " ++ dir).

(** The tail shared by most failure reports:
    [{returncode}:\nStdout: {stdout}\nStderr: {stderr}] *)
Definition code_out_err (p : CompletedProcess) : str :=
  str_of_Z (returncode p) ++ u ":" ++ [NL] ++ u "Stdout: " ++ stdout p
  ++ [NL] ++ u "Stderr: " ++ stderr p.

Definition run_make_command (command : str) : M str :=
  available_targets <- get_makefile_targets ;;
  dir <- get_dir ;;
  match available_targets with
  | [] =>
      ret (u "Could not read Makefile targets from " ++ dir
           ++ u "/Makefile. Please check if the Nextflow directory is set correctly.")
  | _ =>
      if negb (mem command available_targets)
      then
        ret (u "Error: '" ++ command
             ++ u "' is not a valid make target. Available targets are:" ++ [NL]
             ++ bullet_list available_targets)
      else
        try_except
          (process <- run [u "make"; command] dir ;;
           if negb (returncode process =? 0)%Z
           then ret (u "Command 'make " ++ command ++ u "' failed with exit code "
                     ++ code_out_err process)
           else ret (u "Command 'make " ++ command ++ u "' succeeded:" ++ [NL]
                     ++ stdout process))
          (fun e => ret (u "Exception running make " ++ command ++ u ": " ++ e))
  end.

Definition run_specific_test (test_path : str) : M str :=
  dir <- get_dir ;;
  try_except
    (process <- run [u "./gradlew"; u "test"; u "--tests"; test_path] dir ;;
     if negb (returncode process =? 0)%Z
     then ret (u "Test failed with exit code " ++ code_out_err process)
     else ret (u "Test completed successfully:" ++ [NL] ++ stdout process))
    (fun e => ret (u "Exception running test " ++ test_path ++ u ": " ++ e)).

Definition build_nextflow : M str :=
  available_targets <- get_makefile_targets ;;
  dir <- get_dir ;;
  let build build_target :=
    try_except
      (process <- run [u "make"; build_target] dir ;;
       if negb (returncode process =? 0)%Z
       then ret (u "Build failed with exit code " ++ code_out_err process)
       else ret (u "Build succeeded:" ++ [NL] ++ stdout process))
      (fun e => ret (u "Exception during build: " ++ e)) in
  if negb (mem (u "compile") available_targets)
  then
    if mem (u "build") available_targets
    then build (u "build")
    else
      ret (u "Error: Neither 'compile' nor 'build' targets found in Makefile. Available targets are:"
           ++ [NL] ++ bullet_list available_targets)
  else build (u "compile").

Definition run_integration_tests : M str :=
  dir <- get_dir ;;
  try_except
    (process <- run [u "make"; u "test"] dir ;;
     if negb (returncode process =? 0)%Z
     then ret (u "Integration tests failed with exit code " ++ code_out_err process)
     else ret (u "Integration tests completed:" ++ [NL] ++ stdout process))
    (fun e => ret (u "Exception running integration tests: " ++ e)).

Definition get_nextflow_version : M str :=
  dir <- get_dir ;;
  try_except
    (process <- run [u "./nextflow"; u "-version"] dir ;;
     if negb (returncode process =? 0)%Z
     then ret (u "Error getting version. Exit code " ++ str_of_Z (returncode process)
               ++ u ": " ++ stderr process)
     else ret (strip (stdout process)))
    (fun e => ret (u "Exception getting Nextflow version: " ++ e)).

(** The second half of [run_development_nextflow]: run [./launch.sh]. *)
Definition launch (command : str) : M str :=
  dir <- get_dir ;;
  try_except
    (let cmd := [u "./launch.sh"] ++ match command with
                                     | [] => []
                                     | _ => split_ws command
                                     end in
     process <- run cmd dir ;;
     if negb (returncode process =? 0)%Z
     then ret (u "Development Nextflow execution failed with exit code "
               ++ code_out_err process)
     else ret (u "Development Nextflow execution succeeded:" ++ [NL] ++ stdout process))
    (fun e => ret (u "Exception during Nextflow execution: " ++ e)).

(** The compile step of [run_development_nextflow]: [Some msg] stands
    for [return msg] out of the whole function, [None] for falling
    through to the launch. *)
Definition compile_first : M (option str) :=
  dir <- get_dir ;;
  try_except
    (process <- run [u "make"; u "compile"] dir ;;
     if negb (returncode process =? 0)%Z
     then ret (Some (u "Failed to compile Nextflow before running:" ++ [NL]
                     ++ u "Exit code: " ++ str_of_Z (returncode process) ++ [NL]
                     ++ u "Stdout: " ++ stdout process ++ [NL]
                     ++ u "Stderr: " ++ stderr process))
     else ret None)
    (fun e => ret (Some (u "Exception during compilation: " ++ e))).

Definition run_development_nextflow (command : str) : M str :=
  dir <- get_dir ;;
  let launch_script := path_join dir (u "launch.sh") in
  if negb (isfile w launch_script)
  then ret (u "Error: launch.sh script not found at " ++ launch_script
            ++ u ". Make sure the Nextflow directory is correct.")
  else
    available_targets <- get_makefile_targets ;;
    early <- (if mem (u "compile") available_targets
              then compile_first
              else ret None) ;;
    match early with
    | Some error_msg => ret error_msg
    | None => launch command
    end.

(** [class_name] is [None] or a string; an empty string is falsy too. *)
Definition run_plugin_test (module : str) (class_name : option str) : M str :=
  dir <- get_dir ;;
  let cmd := [u "make"; u "test"] ++ [u "module=" ++ module]
             ++ match class_name with
                | Some (c :: cs) => [u "class=" ++ (c :: cs)]
                | _ => []
                end in
  try_except
    (process <- run cmd dir ;;
     if negb (returncode process =? 0)%Z
     then ret (u "Plugin test failed with exit code " ++ code_out_err process)
     else ret (u "Plugin test completed successfully:" ++ [NL] ++ stdout process))
    (fun e => ret (u "Exception during plugin test: " ++ e)).

End Tools.

(** ** Specification vocabulary *)

(** The longest prefix of [s] whose characters satisfy [p], and the rest. *)
Fixpoint span (p : char -> bool) (s : str) : str * str :=
  match s with
  | c :: s' =>
      if p c then let (a, b) := span p s' in (c :: a, b) else ([], s)
  | [] => ([], [])
  end.

(** The text up to the first newline. *)
Definition first_line (s : str) : str := fst (span is_dot s).

(** The target a single line declares, if any: a name, a colon, white
    space, and then either the end of the line or a [#]. *)
Definition line_target (line : str) : option str :=
  match span is_name line with
  | (c :: name, x :: r) =>
      if (x =? COLON)%N
      then match snd (span is_space r) with
           | [] => Some (c :: name)
           | y :: _ => if (y =? HASH)%N then Some (c :: name) else None
           end
      else None
  | _ => None
  end.

Definition opt_list {A} (o : option A) : list A :=
  match o with
  | Some a => [a]
  | None => []
  end.

(** The targets of a list of lines, in order, one per declaring line. *)
Definition targets_of_lines (ls : list str) : list str :=
  flat_map (fun l => opt_list (line_target l)) ls.

Definition all (p : char -> bool) (s : str) : Prop :=
  Forall (fun c => p c = true) s.

(** [declares line name]: the whole line is [name], a colon, optional
    white space and an optional comment starting with [#]. *)
Definition declares (line name : str) : Prop :=
  name <> [] /\ all is_name name /\
  exists ws cm,
    all is_space ws /\ (cm = [] \/ exists t, cm = HASH :: t) /\
    line = name ++ COLON :: ws ++ cm.

(** The narrower reading: after an optional comment is taken away
    the line is exactly [name] and a colon. *)
Definition declares_exactly (line name : str) : Prop :=
  name <> [] /\ all is_name name /\
  (line = name ++ [COLON] \/ exists t, line = name ++ COLON :: HASH :: t).

(** [includes s x]: [x] occurs in [s] as it is. *)
Definition includes (s x : str) : Prop :=
  exists pre post, s = pre ++ x ++ post.

Fixpoint includesb (s x : str) : bool :=
  startswith s x ||
  match s with
  | [] => false
  | _ :: s' => includesb s' x
  end.

(** A failure report that carries the exit code, the captured standard
    output and the captured standard error. *)
Definition verbatim_report (p : CompletedProcess) (msg : str) : Prop :=
  includes msg (str_of_Z (returncode p)) /\
  includes msg (stdout p) /\
  includes msg (stderr p).

(** The character before the position reached after reading [x]. *)
Definition prev_after (pv : option char) (x : str) : option char :=
  fold_left (fun _ c => Some c) x pv.

Definition bol (pv : option char) : bool :=
  match pv with
  | None => true
  | Some c => (c =? NL)%N
  end.

(** The position before [r] ends a line. *)
Definition eol (r : str) : bool :=
  match r with
  | [] => true
  | c :: _ => (c =? NL)%N
  end.

(** What a scan that looks at every position finds: at each start of a
    line, the target of the line that starts there. *)
Fixpoint line_scan (pv : option char) (s : str) : list str :=
  (if bol pv then opt_list (line_target (first_line s)) else [])
  ++ match s with
     | [] => []
     | c :: s' => line_scan (Some c) s'
     end.

Module ReSem.
Import Re.

(** Zero or more characters of a class, without any order of preference. *)
Inductive reps (p : char -> bool) : mstate -> mstate -> Prop :=
| reps_done st : reps p st st
| reps_more pv c s g st' :
    p c = true ->
    reps p (MState (Some c) s g) st' ->
    reps p (MState pv (c :: s) g) st'.

(** [matches r st st']: [r] can match from [st] and end in [st']. *)
Inductive matches : regex -> mstate -> mstate -> Prop :=
| m_bol st : at_bol st = true -> matches Bol st st
| m_eol st : at_eol st = true -> matches Eol st st
| m_lit pv c s g : matches (Lit c) (MState pv (c :: s) g) (MState (Some c) s g)
| m_star p st st' : reps p st st' -> matches (Star p) st st'
| m_plus p pv c s g st' :
    p c = true ->
    reps p (MState (Some c) s g) st' ->
    matches (Plus p) (MState pv (c :: s) g) st'
| m_opt_in r st st' : matches r st st' -> matches (Opt r) st st'
| m_opt_out r st : matches (Opt r) st st
| m_cap r st st' g :
    matches r st st' ->
    g = firstn (length (rest st) - length (rest st')) (rest st) ->
    matches (Cap r) st (MState (prev st') (rest st') (Some g))
| m_seq r1 r2 st st' st'' :
    matches r1 st st' -> matches r2 st' st'' -> matches (Seq r1 r2) st st''.

End ReSem.

(** ** Worlds used in the examples *)

Definition no_process : list str -> str -> result CompletedProcess :=
  fun _ _ => Raise (u "[Errno 2] No such file or directory").

(** A project at [/nf] whose Makefile holds [content]; every child
    process ends as [outcome] says. *)
Definition world_with (content : str)
           (outcome : list str -> str -> result CompletedProcess) : World :=
  {| expanduser := fun p => p;
     isdir := fun p => str_eqb p (u "/nf");
     isfile := fun p => str_eqb p (u "/nf/Makefile") || str_eqb p (u "/nf/launch.sh");
     read_text := fun p =>
       if str_eqb p (u "/nf/Makefile") then Ret content
       else Raise (u "[Errno 2] No such file or directory");
     subprocess_run := outcome |}.

Definition at_nf : State := {| NEXTFLOW_DIR := u "/nf"; invoked := [] |}.

(** ** Further vocabulary of the statements *)

(** The shape of the text a match of [target_pattern] reads. *)
Definition shape (name ws cm : str) : Prop :=
  name <> [] /\ all is_name name /\ all is_space ws /\
  (cm = [] \/ exists t, cm = HASH :: t /\ all is_dot t).

(** The number a string of decimal digits stands for, least significant
    digit first. *)
Definition value_rev (ds : str) : N :=
  fold_right (fun d acc => (d - 48) + 10 * acc)%N 0%N ds.

(** The path [get_makefile_targets] reads. *)
Definition makefile_path (st : State) : str :=
  path_join (NEXTFLOW_DIR st) (u "Makefile").

(** The state after one more call of [subprocess.run] in [NEXTFLOW_DIR]. *)
Definition after_run (st : State) (argv : list str) : State :=
  {| NEXTFLOW_DIR := NEXTFLOW_DIR st;
     invoked := invoked st ++ [(argv, NEXTFLOW_DIR st)] |}.

(** How many of the lines declare [name]. *)
Definition count_declaring (name : str) (ls : list str) : nat :=
  length (filter (fun l => match line_target l with
                           | Some n => str_eqb n name
                           | None => false
                           end) ls).

(** What [run_make_command] answers to a name it does not accept. *)
Definition rejection (dir command : str) (targets : list str) : str :=
  match targets with
  | [] =>
      u "Could not read Makefile targets from " ++ dir
      ++ u "/Makefile. Please check if the Nextflow directory is set correctly."
  | _ =>
      u "Error: '" ++ command
      ++ u "' is not a valid make target. Available targets are:" ++ [NL]
      ++ join [NL] (map (fun target => u "- " ++ target) (sorted targets))
  end.

(** ** Further inputs used in the examples *)

Definition two_foo : str := u "foo:" ++ [NL] ++ u "foo:" ++ [NL].

Definition java_missing : list str -> str -> result CompletedProcess :=
  fun _ _ => Ret {| returncode := 1;
                    stdout := u "JAVA_HOME is not set";
                    stderr := [] |}.

Definition test_build : str :=
  u "test:" ++ [NL; 9%N] ++ u "pytest" ++ [NL] ++ u "build:" ++ [NL; 9%N]
  ++ u "echo hi" ++ [NL].

Definition no_makefile : World :=
  {| expanduser := fun p => p;
     isdir := fun p => str_eqb p (u "/nf");
     isfile := fun _ => false;
     read_text := fun _ => Raise (u "[Errno 2] No such file or directory");
     subprocess_run := no_process |}.

Definition compile_only : str := u "compile:" ++ [NL; 9%N] ++ u "gradle compile" ++ [NL].

Definition compile_breaks : list str -> str -> result CompletedProcess :=
  fun argv _ =>
    if str_eqb (nth 1 argv []) (u "compile")
    then Ret {| returncode := 2; stdout := u "Compiling"; stderr := u "error: x" |}
    else Ret {| returncode := 0; stdout := u "N E X T F L O W"; stderr := [] |}.

Definition make_ok : list str -> str -> result CompletedProcess :=
  fun _ _ => Ret {| returncode := 0; stdout := u "4 passed"; stderr := [] |}.

Arguments code_out_err : simpl never.

(** ** The documentation resource and the prompt *)

(** [d.get(key, default)] on a dict written as its items in order. *)
Fixpoint dict_get (d : list (str * str)) (key default : str) : str :=
  match d with
  | [] => default
  | (k, v) :: d' => if str_eqb k key then v else dict_get d' key default
  end.

(** The [docs] dict of [get_nextflow_docs]. *)
Definition docs : list (str * str) :=
  [(u "testing", u "
# Nextflow Testing Guidelines

Nextflow tests are organized into the following categories:
- Unit tests: Test individual components
- Integration tests: Test the workflow system
- Functional tests: Test complete pipeline execution

## Running Tests
- Unit tests: `make test`
- Integration tests: `make integration-tests`
- Specific test: `./gradlew test --tests TestName`
");
   (u "contributing", u "
# Contributing to Nextflow

1. Fork the repository
2. Create a feature branch
3. Make your changes
4. Write tests for your changes
5. Run tests with `make test`
6. Submit a pull request

See the full guidelines at: https://www.nextflow.io/docs/latest/developer/index.html
")].

Definition get_nextflow_docs (topic : str) : str :=
  dict_get docs topic (u "Documentation for '" ++ topic ++ u "' not found.").

Definition debug_error (error : str) : str :=
  u "
I'm encountering the following error while developing Nextflow:

" ++ error ++ u "


Please help me understand:
1. What might be causing this error
2. How to fix it
3. Any relevant parts of the Nextflow codebase I should investigate
".

(** ** Vocabulary of the further properties *)

(** One line of a listing of targets. *)
Definition bullet (target : str) : str := u "- " ++ target.

(** [grown st st' n]: [st'] is [st] after at most [n] more calls of
    [subprocess.run], each of them made in [NEXTFLOW_DIR]. *)
Definition grown (st st' : State) (n : nat) : Prop :=
  NEXTFLOW_DIR st' = NEXTFLOW_DIR st /\
  exists new,
    invoked st' = invoked st ++ new /\
    length new <= n /\
    Forall (fun c => snd c = NEXTFLOW_DIR st) new.

(** A well-formed target name. *)
Definition name_ok (n : str) : Prop := n <> [] /\ all is_name n.


(** The command line [run_plugin_test] builds: [make test module=...]
    and, for a class name that is neither [None] nor empty, [class=...]. *)
Definition plugin_argv (module : str) (class_name : option str) : list str :=
  [u "make"; u "test"] ++ [u "module=" ++ module]
  ++ match class_name with
     | Some (c :: cs) => [u "class=" ++ (c :: cs)]
     | _ => []
     end.

(** The command line [run_development_nextflow] gives to the launch
    script. *)
Definition launch_argv (command : str) : list str :=
  [u "./launch.sh"] ++ match command with
                       | [] => []
                       | _ => split_ws command
                       end.

(** A call of [subprocess.run] that raises. *)
Definition broken : list str -> str -> result CompletedProcess :=
  fun _ _ => Raise (u "[Errno 13] Permission denied: 'make'").

(** A child process that always ends as [p]. *)
Definition always (p : CompletedProcess) : list str -> str -> result CompletedProcess :=
  fun _ _ => Ret p.

Definition failing : CompletedProcess :=
  {| returncode := 2; stdout := u "Compiling"; stderr := u "error: x" |}.

Definition version_ok : CompletedProcess :=
  {| returncode := 0;
     stdout := [NL] ++ u "  nextflow version 24.04.0 " ++ [NL];
     stderr := [] |}.

Definition with_deps : str := u "test: compile" ++ [NL; 9%N] ++ u "pytest" ++ [NL].

(** A tool call ends well: it returns a text, and the state has [grown]
    by at most [n] child processes. *)
Definition ends_well (r : result str * State) (st : State) (n : nat) : Prop :=
  exists msg st', r = (Ret msg, st') /\ grown st st' n.

(** ** Examples *)

Example str_of_Z_ex : str_of_Z 0 = u "0" /\ str_of_Z 127 = u "127"
                      /\ str_of_Z (-9) = u "-9" /\ str_of_Z 1000 = u "1000".
Proof. repeat split; reflexivity. Qed.

Example sorted_ex :
  sorted [u "test"; u "build"; u "all"; u "Zed"] = [u "Zed"; u "all"; u "build"; u "test"].
Proof. reflexivity. Qed.

Example split_ws_ex : split_ws (u "  run  hello.nf -x ") = [u "run"; u "hello.nf"; u "-x"].
Proof. reflexivity. Qed.

Example lines_ex : lines (u "a:
b
") = [u "a:"; u "b"; u ""].
Proof. reflexivity. Qed.

Example findall_ex1 :
  Re.findall target_pattern (u "test:
	pytest
build:
	echo hi
") = [u "test"; u "build"].
Proof. reflexivity. Qed.

Example findall_ex2 :
  Re.findall target_pattern (u "all: # everything
  foo:
x: y
a-b_9:   

%.o: %.c
.PHONY: all
all:") = [u "all"; u "a-b_9"; u "all"].
Proof. reflexivity. Qed.

(** ** The matcher against the relational reading *)

Module ReFacts.
Import Re ReSem.

Lemma star_sound R p (k : mstate -> option R) : forall s pv g x,
  star p pv s g k = Some x ->
  exists st', reps p (MState pv s g) st' /\ k st' = Some x.
Proof.
  induction s as [|c s IH]; intros pv g x H; simpl in H.
  - eexists; split; [apply reps_done | exact H].
  - destruct (p c) eqn:Hp.
    + destruct (star p (Some c) s g k) eqn:Hs.
      * inversion H; subst.
        destruct (IH _ _ _ Hs) as [st' [Hr Hk]].
        exists st'; split; [eapply reps_more; eauto | exact Hk].
      * eexists; split; [apply reps_done | exact H].
    + eexists; split; [apply reps_done | exact H].
Qed.

Lemma star_complete R p (k : mstate -> option R) : forall s pv g,
  star p pv s g k = None ->
  forall st', reps p (MState pv s g) st' -> k st' = None.
Proof.
  induction s as [|c s IH]; intros pv g H st' Hr; simpl in H.
  - inversion Hr; subst. exact H.
  - inversion Hr; subst.
    + destruct (p c); [|exact H].
      destruct (star p (Some c) s g k); [discriminate | exact H].
    + match goal with Hp : p c = true |- _ => rewrite Hp in H end.
      destruct (star p (Some c) s g k) eqn:Hs; [discriminate|].
      eapply IH; eauto.
Qed.

(** A successful run of the matcher is a match in the relational sense
    on which the continuation succeeds with the same answer. *)
Lemma rmatch_sound R : forall r st (k : mstate -> option R) x,
  rmatch r st k = Some x ->
  exists st', matches r st st' /\ k st' = Some x.
Proof.
  induction r; intros st k x H; simpl in H.
  - destruct (at_bol st) eqn:E; [|discriminate].
    exists st; split; [constructor; assumption | assumption].
  - destruct (at_eol st) eqn:E; [|discriminate].
    exists st; split; [constructor; assumption | assumption].
  - destruct st as [pv s g]; simpl in H.
    destruct s as [|y s]; [discriminate|].
    destruct (N.eqb_spec y c); [subst|discriminate].
    eexists; split; [constructor | exact H].
  - destruct st as [pv s g]; simpl in H.
    apply star_sound in H. destruct H as [st' [Hr Hk]].
    exists st'; split; [constructor; assumption | assumption].
  - destruct st as [pv s g]; simpl in H.
    destruct s as [|y s]; [discriminate|].
    destruct (p y) eqn:Hp; [|discriminate].
    apply star_sound in H. destruct H as [st' [Hr Hk]].
    exists st'; split; [econstructor; eassumption | assumption].
  - destruct (rmatch r st k) eqn:Hm.
    + inversion H; subst.
      destruct (IHr _ _ _ Hm) as [st' [Hr Hk]].
      exists st'; split; [apply m_opt_in; assumption | assumption].
    + exists st; split; [apply m_opt_out | assumption].
  - apply IHr in H. destruct H as [st' [Hr Hk]].
    eexists; split; [eapply m_cap; [eassumption | reflexivity] | exact Hk].
  - apply IHr1 in H. destruct H as [st1 [Hr1 H]].
    apply IHr2 in H. destruct H as [st2 [Hr2 H]].
    exists st2; split; [econstructor; eassumption | assumption].
Qed.

(** A failed run leaves no match on which the continuation succeeds. *)
Lemma rmatch_complete R : forall r st (k : mstate -> option R),
  rmatch r st k = None ->
  forall st', matches r st st' -> k st' = None.
Proof.
  induction r; intros st k H st' Hm; simpl in H; inversion Hm; subst; simpl in *.
  - match goal with E : at_bol _ = true |- _ => rewrite E in H end. assumption.
  - match goal with E : at_eol _ = true |- _ => rewrite E in H end. assumption.
  - rewrite N.eqb_refl in H. assumption.
  - destruct st as [pv s g]. eapply star_complete; eauto.
  - match goal with E : p _ = true |- _ => rewrite E in H end.
    eapply star_complete; eauto.
  - destruct (rmatch r st k) eqn:E; [discriminate|]. eapply IHr; eauto.
  - destruct (rmatch r st' k); [discriminate | assumption].
  - eapply (IHr _ _ H) in H1. exact H1.
  - eapply IHr2; [|eassumption].
    eapply (IHr1 _ _ H). eassumption.
Qed.

End ReFacts.

(** ** Facts on strings and lines *)

Lemma prev_after_app pv x y :
  prev_after pv (x ++ y) = prev_after (prev_after pv x) y.
Proof. unfold prev_after. apply fold_left_app. Qed.

Lemma firstn_consumed (a b : str) :
  firstn (length (a ++ b) - length b) (a ++ b) = a.
Proof.
  rewrite length_app.
  replace (length a + length b - length b) with (length a + 0) by lia.
  rewrite firstn_app_2. simpl. apply app_nil_r.
Qed.

Lemma is_name_not_space c : is_name c = true -> is_space c = false.
Proof.
  unfold is_name, is_space. intros H.
  repeat match goal with
         | H : _ || _ = true |- _ => apply orb_true_iff in H; destruct H as [H|H]
         | H : _ && _ = true |- _ => apply andb_true_iff in H; destruct H
         | H : (_ <=? _)%N = true |- _ => apply N.leb_le in H
         | H : (_ =? _)%N = true |- _ => apply N.eqb_eq in H
         end;
  repeat match goal with
         | |- _ || _ = false => apply orb_false_iff; split
         | |- _ && _ = false => apply andb_false_iff
         end;
  try (apply N.eqb_neq; lia);
  try (left; apply N.leb_gt; lia); try (right; apply N.leb_gt; lia).
Qed.

Lemma is_name_dot c : is_name c = true -> is_dot c = true.
Proof.
  intros H. unfold is_dot. destruct (N.eqb_spec c NL) as [->|]; [|reflexivity].
  discriminate H.
Qed.

Lemma is_space_not_name c : is_space c = true -> is_name c = false.
Proof.
  intros H. destruct (is_name c) eqn:E; [|reflexivity].
  apply is_name_not_space in E. congruence.
Qed.

Lemma not_dot_NL c : is_dot c = false -> c = NL.
Proof.
  unfold is_dot. destruct (N.eqb_spec c NL); [auto | discriminate].
Qed.

Lemma span_all p : forall x r,
  all p x -> (match r with [] => True | c :: _ => p c = false end) ->
  span p (x ++ r) = (x, r).
Proof.
  induction x as [|c x IH]; intros r Hx Hr; simpl.
  - destruct r as [|c r]; simpl; [reflexivity|]. rewrite Hr. reflexivity.
  - inversion Hx as [|? ? Hc Hx']; subst. rewrite Hc.
    rewrite IH by assumption. reflexivity.
Qed.

Lemma span_spec p : forall s,
  s = fst (span p s) ++ snd (span p s) /\ all p (fst (span p s)) /\
  match snd (span p s) with [] => True | c :: _ => p c = false end.
Proof.
  induction s as [|c s IH]; simpl.
  - repeat split. constructor.
  - destruct (p c) eqn:Hp.
    + destruct (span p s) as [a b]; simpl in *.
      destruct IH as [E [Ha Hb]]. repeat split.
      * f_equal. exact E.
      * constructor; assumption.
      * exact Hb.
    + simpl. repeat split; [constructor | exact Hp].
Qed.

(** A text is its first line and, when there is more, a newline and the
    rest. *)
Lemma first_line_spec s :
  all is_dot (first_line s) /\
  (s = first_line s \/ exists r, s = first_line s ++ NL :: r).
Proof.
  unfold first_line. destruct (span_spec is_dot s) as [E [Ha Hb]].
  split; [exact Ha|].
  destruct (snd (span is_dot s)) as [|c r] eqn:Es.
  - left. rewrite app_nil_r in E. exact E.
  - right. apply not_dot_NL in Hb. subst c. exists r. exact E.
Qed.

Lemma first_line_app x r :
  all is_dot x -> first_line (x ++ r) = x ++ first_line r.
Proof.
  unfold first_line. induction x as [|c x IH]; intros H; simpl; [reflexivity|].
  inversion H as [|? ? Hc Hx]; subst. rewrite Hc.
  specialize (IH Hx). destruct (span is_dot (x ++ r)); simpl in *.
  f_equal. exact IH.
Qed.

Lemma first_line_eol r : eol r = true -> first_line r = [].
Proof.
  destruct r as [|c r]; [reflexivity|]. intros H.
  apply N.eqb_eq in H. subst. reflexivity.
Qed.

Lemma all_app p x y : all p (x ++ y) <-> all p x /\ all p y.
Proof. apply Forall_app. Qed.

(** White space either has no newline or splits at its first one. *)
Lemma split_at_newline x :
  all is_dot x \/ exists a b, x = a ++ NL :: b /\ all is_dot a.
Proof.
  induction x as [|c x IH].
  - left. constructor.
  - destruct (is_dot c) eqn:Hc.
    + destruct IH as [IH | [a [b [E Ha]]]].
      * left. constructor; assumption.
      * right. exists (c :: a), b. subst. split; [reflexivity|].
        constructor; assumption.
    + apply not_dot_NL in Hc. subst.
      right. exists [], x. split; [reflexivity | constructor].
Qed.

(** [line_target] computes [declares]. *)
Lemma line_target_declares line name :
  line_target line = Some name <-> declares line name.
Proof.
  split.
  - unfold line_target. intros H.
    destruct (span_spec is_name line) as [E [Ha Hb]].
    destruct (span is_name line) as [nm r]; simpl in *.
    destruct nm as [|c nm]; [discriminate|].
    destruct r as [|x r]; [discriminate|].
    destruct (N.eqb_spec x COLON); [subst x|discriminate].
    destruct (span_spec is_space r) as [E2 [Ha2 Hb2]].
    assert (Hn : name = c :: nm).
    { destruct (snd (span is_space r)) as [|y t]; [congruence|].
      destruct (y =? HASH)%N; congruence. }
    subst name. split; [discriminate|]. split; [exact Ha|].
    exists (fst (span is_space r)), (snd (span is_space r)).
    split; [exact Ha2|]. split.
    + destruct (snd (span is_space r)) as [|y t]; [left; reflexivity|].
      destruct (N.eqb_spec y HASH); [subst; right; eauto | discriminate].
    + rewrite <- E2. exact E.
  - intros [Hne [Hn [ws [cm [Hws [Hcm E]]]]]]. subst line.
    unfold line_target.
    rewrite (@span_all is_name name (COLON :: ws ++ cm) Hn) by reflexivity.
    destruct name as [|c nm]; [congruence|].
    rewrite N.eqb_refl.
    rewrite (@span_all is_space ws cm Hws).
    + simpl. destruct Hcm as [->|[t ->]]; [reflexivity|].
      rewrite N.eqb_refl. reflexivity.
    + destruct Hcm as [->|[t ->]]; [exact I | reflexivity].
Qed.

Lemma line_target_nonname c s :
  is_name c = false -> line_target (first_line (c :: s)) = None.
Proof.
  intros H. unfold first_line. simpl.
  destruct (is_dot c); [|reflexivity].
  destruct (span is_dot s) as [a b]; simpl.
  unfold line_target. simpl. rewrite H. reflexivity.
Qed.

(** ** What a match of [target_pattern] looks like *)

Module TargetPattern.
Import Re ReSem ReFacts.

Ltac inv H := inversion H; subst; clear H.

Lemma reps_inv p st st' :
  reps p st st' ->
  exists x, rest st = x ++ rest st' /\ all p x /\
            prev st' = prev_after (prev st) x /\ grp st' = grp st.
Proof.
  induction 1 as [st | pv c s g st' Hc Hr IH].
  - exists []. repeat split. constructor.
  - destruct IH as [x [E [Hx [Hp Hg]]]]. simpl in *.
    exists (c :: x). repeat split; simpl; try assumption.
    + f_equal. exact E.
    + constructor; assumption.
Qed.

Lemma reps_intro p : forall x pv r g,
  all p x -> reps p (MState pv (x ++ r) g) (MState (prev_after pv x) r g).
Proof.
  induction x as [|c x IH]; intros pv r g H; simpl.
  - apply reps_done.
  - inversion H as [|? ? Hc Hx]; subst.
    apply reps_more; [exact Hc|]. apply IH. exact Hx.
Qed.

Ltac inv_all :=   repeat match goal with
  | H : matches (Seq _ _) _ _ |- _ => inv H
  | H : matches Bol _ _ |- _ => inv H
  | H : matches Eol _ _ |- _ => inv H
  | H : matches (Cap _) _ _ |- _ => inv H
  | H : matches (Plus _) _ _ |- _ => inv H
  | H : matches (Star _) _ _ |- _ => inv H
  | H : matches (Lit _) _ _ |- _ => inv H
  end.
Ltac reps_all :=
  repeat match goal with
         | H : reps _ _ _ |- _ =>
             apply reps_inv in H; destruct H as (? & ? & ? & ? & ?)
         end.

Lemma firstn_exact (a b : str) n : n = length a -> firstn n (a ++ b) = a.
Proof.
  intros ->. replace (length a) with (length a + 0) by lia.
  rewrite firstn_app_2. simpl. apply app_nil_r.
Qed.

Lemma prev_after_cons pv c x : prev_after pv (c :: x) = prev_after (Some c) x.
Proof. reflexivity. Qed.

Lemma match_inv pv s st' :
  matches target_pattern (MState pv s None) st' ->
  bol pv = true /\
  exists name ws cm,
    shape name ws cm /\
    s = name ++ COLON :: ws ++ cm ++ rest st' /\
    at_eol st' = true /\
    grp st' = Some name /\
    prev st' = prev_after pv (name ++ COLON :: ws ++ cm).
Proof.
  unfold target_pattern. intros H.
  inv_all. reps_all.
  match goal with H : matches (Opt _) _ _ |- _ => inv H end.
  - inv_all. reps_all.
    repeat match goal with st : mstate |- _ => destruct st end.
    simpl in *. subst. simpl in *.
    split; [assumption|].
    match goal with
    | Hn : all is_name ?nm, Hw : all is_space ?ws, Hd : all is_dot ?t |- _ =>
        exists (c :: nm), ws, (HASH :: t)
    end.
    split; [|split; [|split; [|split]]].
    + repeat split; [discriminate | constructor; assumption | assumption |].
      right. exists x1. split; [reflexivity | assumption].
    + reflexivity.
    + assumption.
    + f_equal. apply (firstn_exact (c :: x0)).
      repeat first [rewrite length_app | progress simpl]. lia.
    + replace ((c :: x0) ++ COLON :: x ++ HASH :: x1)
        with (((c :: x0) ++ COLON :: x) ++ HASH :: x1)
        by (rewrite <- app_assoc; reflexivity).
      rewrite prev_after_app. reflexivity.
  - reps_all.
    repeat match goal with st : mstate |- _ => destruct st end.
    simpl in *. subst. simpl in *.
    split; [assumption|].
    match goal with
    | Hn : all is_name ?nm, Hw : all is_space ?ws |- _ =>
        exists (c :: nm), ws, []
    end.
    split; [|split; [|split; [|split]]].
    + repeat split; [discriminate | constructor; assumption | assumption |].
      left. reflexivity.
    + reflexivity.
    + assumption.
    + f_equal. apply (firstn_exact (c :: x0)).
      repeat first [rewrite length_app | progress simpl]. lia.
    + rewrite app_nil_r. rewrite prev_after_app. reflexivity.
Qed.

(** Conversely, a text of that shape that ends a line is matched. *)
Lemma match_intro pv name ws cm r :
  bol pv = true -> shape name ws cm -> eol r = true ->
  exists st', matches target_pattern (MState pv (name ++ COLON :: ws ++ cm ++ r) None) st'.
Proof.
  intros Hb (Hne & Hn & Hw & Hc) Hr.
  destruct name as [|c nm]; [congruence|].
  inversion Hn as [|? ? Hc0 Hnm]; subst.
  assert (Hhead : forall st2,
             matches (Seq (Opt (Seq (Lit HASH) (Star is_dot))) Eol)
               (MState (prev_after (Some COLON) ws) (cm ++ r)
                  (Some (firstn (length (c :: nm ++ COLON :: ws ++ cm ++ r)
                                 - length (COLON :: ws ++ cm ++ r))
                           (c :: nm ++ COLON :: ws ++ cm ++ r)))) st2 ->
             matches target_pattern
               (MState pv ((c :: nm) ++ COLON :: ws ++ cm ++ r) None) st2).
  { intros st2 H2. unfold target_pattern.
    eapply m_seq; [apply m_bol; exact Hb|].
    eapply m_seq.
    { eapply m_cap; [|reflexivity].
      simpl. eapply m_plus; [exact Hc0|].
      apply reps_intro. exact Hnm. }
    eapply m_seq; [apply m_lit|].
    eapply m_seq; [apply m_star; apply reps_intro; exact Hw|].
    exact H2. }
  destruct Hc as [->|[t [-> Ht]]].
  - eexists. apply Hhead.
    eapply m_seq; [apply m_opt_out|]. apply m_eol. exact Hr.
  - eexists. apply Hhead.
    eapply m_seq.
    + apply m_opt_in. eapply m_seq; [apply m_lit|].
      apply m_star. apply reps_intro. exact Ht.
    + apply m_eol. exact Hr.
Qed.

Lemma line_scan_cons pv c s :
  line_scan pv (c :: s) =
  (if bol pv then opt_list (line_target (first_line (c :: s))) else [])
  ++ line_scan (Some c) s.
Proof. reflexivity. Qed.

Lemma line_scan_nobol pv c s :
  bol pv = false -> line_scan pv (c :: s) = line_scan (Some c) s.
Proof. intros H. rewrite line_scan_cons, H. reflexivity. Qed.

Lemma line_scan_nonname pv c s :
  is_name c = false -> line_scan pv (c :: s) = line_scan (Some c) s.
Proof.
  intros H. rewrite line_scan_cons, (@line_target_nonname c s H).
  destruct (bol pv); reflexivity.
Qed.

(** Inside a line no position starts a line. *)
Lemma skip_nobol : forall x pv r,
  bol pv = false -> all is_dot x ->
  line_scan pv (x ++ r) = line_scan (prev_after pv x) r.
Proof.
  induction x as [|c x IH]; intros pv r Hb Hx; [reflexivity|].
  inversion Hx as [|? ? Hc Hx']; subst.
  simpl app. rewrite line_scan_nobol by assumption.
  rewrite prev_after_cons. apply IH; [|assumption].
  simpl. unfold is_dot in Hc. destruct (c =? NL)%N; [discriminate|reflexivity].
Qed.

(** A line that starts with something else than a name character
    declares nothing. *)
Lemma skip_nonname : forall x pv r,
  Forall (fun c => is_name c = false) x ->
  line_scan pv (x ++ r) = line_scan (prev_after pv x) r.
Proof.
  induction x as [|c x IH]; intros pv r Hx; [reflexivity|].
  inversion Hx as [|? ? Hc Hx']; subst.
  simpl app. rewrite line_scan_nonname by assumption.
  rewrite prev_after_cons. apply IH. assumption.
Qed.

Lemma first_target name ws cm r :
  shape name ws cm -> eol r = true ->
  line_target (first_line (name ++ COLON :: ws ++ cm ++ r)) = Some name.
Proof.
  intros (Hne & Hn & Hw & Hc) Hr.
  apply line_target_declares.
  split; [exact Hne|]. split; [exact Hn|].
  assert (Hnd : all is_dot (name ++ [COLON])).
  { apply all_app. split.
    - eapply Forall_impl; [|exact Hn]. apply is_name_dot.
    - repeat constructor. }
  replace (name ++ COLON :: ws ++ cm ++ r)
    with ((name ++ [COLON]) ++ ws ++ cm ++ r)
    by (rewrite <- app_assoc; reflexivity).
  rewrite first_line_app by assumption.
  destruct (split_at_newline ws) as [Hd | [a [b [E Ha]]]].
  - exists ws, cm. split; [exact Hw|]. split.
    + destruct Hc as [->|[t [-> _]]]; [left; reflexivity | right; eauto].
    + rewrite first_line_app by assumption.
      assert (Hcd : all is_dot cm).
      { destruct Hc as [->|[t [-> Ht]]]; [constructor|].
        constructor; [reflexivity | assumption]. }
      rewrite first_line_app by assumption.
      rewrite (@first_line_eol r Hr). rewrite app_nil_r.
      rewrite <- app_assoc. reflexivity.
  - subst ws. apply all_app in Hw. destruct Hw as [Hwa _].
    exists a, []. split; [exact Hwa|]. split; [left; reflexivity|].
    replace ((a ++ NL :: b) ++ cm ++ r) with (a ++ NL :: b ++ cm ++ r)
      by (rewrite <- app_assoc; reflexivity).
    rewrite first_line_app by assumption.
    rewrite (@first_line_eol (NL :: b ++ cm ++ r)) by reflexivity.
    rewrite !app_nil_r. rewrite <- app_assoc. reflexivity.
Qed.

(** After a match the scan may go on from the end of the match: nothing
    is declared at the positions it jumps over. *)
Lemma skip_match pv name ws cm r :
  bol pv = true -> shape name ws cm -> eol r = true ->
  line_scan pv (name ++ COLON :: ws ++ cm ++ r) =
  name :: line_scan (prev_after pv (name ++ COLON :: ws ++ cm)) r.
Proof.
  intros Hb Hs Hr.
  pose proof (@first_target name ws cm r Hs Hr) as Ht.
  destruct Hs as (Hne & Hn & Hw & Hc).
  destruct name as [|c nm]; [congruence|].
  inversion Hn as [|? ? Hc0 Hnm]; subst.
  simpl app in *. rewrite line_scan_cons, Hb, Ht. simpl app. f_equal.
  rewrite prev_after_cons.
  replace (nm ++ COLON :: ws ++ cm ++ r)
    with ((nm ++ [COLON]) ++ ws ++ cm ++ r)
    by (rewrite <- app_assoc; reflexivity).
  replace (nm ++ COLON :: ws ++ cm)
    with ((nm ++ [COLON]) ++ ws ++ cm)
    by (rewrite <- app_assoc; reflexivity).
  rewrite skip_nobol.
  - rewrite skip_nonname
      by (eapply Forall_impl; [|exact Hw]; apply is_space_not_name).
    rewrite !prev_after_app.
    destruct Hc as [->|[t [-> Hd]]]; [reflexivity|].
    simpl app. rewrite line_scan_nonname by reflexivity.
    rewrite prev_after_cons. apply skip_nobol; [reflexivity | assumption].
  - simpl. apply is_name_dot in Hc0. unfold is_dot in Hc0.
    destruct (c =? NL)%N; [discriminate | reflexivity].
  - apply all_app. split.
    + eapply Forall_impl; [|exact Hnm]. apply is_name_dot.
    + repeat constructor.
Qed.

(** Where no match starts, no line that declares a target starts. *)
Lemma no_match_no_target pv s :
  match_at target_pattern pv s = None ->
  bol pv = true -> line_target (first_line s) = None.
Proof.
  intros Hm Hb.
  destruct (line_target (first_line s)) as [name|] eqn:Ht; [|reflexivity].
  exfalso.
  apply line_target_declares in Ht.
  destruct Ht as (Hne & Hn & ws & cm & Hw & Hc & E).
  destruct (first_line_spec s) as [Hd Hs].
  assert (Hsh : shape name ws cm).
  { repeat split; try assumption.
    destruct Hc as [->|[t ->]]; [left; reflexivity|].
    right. exists t. split; [reflexivity|].
    rewrite E in Hd.
    apply all_app in Hd. destruct Hd as [_ Hd].
    inversion Hd as [|? ? _ Hd']; subst.
    apply all_app in Hd'. destruct Hd' as [_ Hd'].
    inversion Hd'; assumption. }
  assert (Hr : exists r, s = name ++ COLON :: ws ++ cm ++ r /\ eol r = true).
  { destruct Hs as [Hs | [r Hs]].
    - exists []. split; [|reflexivity].
      rewrite app_nil_r. rewrite <- E. exact Hs.
    - exists (NL :: r). split; [|reflexivity].
      rewrite Hs at 1. rewrite E. rewrite <- !app_assoc. simpl.
      rewrite <- !app_assoc. reflexivity. }
  destruct Hr as [r [Es Hr]].
  destruct (@match_intro pv name ws cm r Hb Hsh Hr) as [st' Hst].
  rewrite <- Es in Hst.
  unfold match_at in Hm.
  pose proof (@rmatch_complete _ _ _ _ Hm _ Hst) as Hk.
  discriminate Hk.
Qed.

(** The scan of [findall] finds what a look at every line finds. *)
Lemma findall_from_scan : forall fuel pv s,
  length s < fuel ->
  findall_from fuel target_pattern pv s = line_scan pv s.
Proof.
  induction fuel as [|fuel IH]; intros pv s Hlen; [lia|].
  simpl findall_from.
  assert (Hstep : match s with
                  | [] => []
                  | c :: s' => findall_from fuel target_pattern (Some c) s'
                  end
                  = match s with
                    | [] => []
                    | c :: s' => line_scan (Some c) s'
                    end).
  { destruct s as [|c s']; [reflexivity|]. apply IH. simpl in Hlen. lia. }
  destruct (match_at target_pattern pv s) as [st'|] eqn:Hm.
  - unfold match_at in Hm. apply rmatch_sound in Hm.
    destruct Hm as [st'' [Hmt Hk]]. inversion Hk; subst st''.
    apply match_inv in Hmt.
    destruct Hmt as (Hb & name & ws & cm & Hsh & Es & He & Hg & Hp).
    assert (Hlt : length (rest st') < length s).
    { destruct Hsh as (Hne & _). rewrite Es.
      destruct name; [congruence|].
      repeat first [rewrite length_app | progress simpl]. lia. }
    apply Nat.ltb_lt in Hlt. rewrite Hlt.
    rewrite IH by (apply Nat.ltb_lt in Hlt; lia).
    unfold group1. rewrite Hg, Hp.
    rewrite Es at 1. symmetry. apply skip_match; assumption.
  - rewrite Hstep.
    destruct s as [|c s'].
    + simpl. destruct (bol pv); reflexivity.
    + rewrite line_scan_cons.
      destruct (bol pv) eqn:Hb; [|reflexivity].
      rewrite (@no_match_no_target _ _ Hm Hb). reflexivity.
Qed.

Lemma lines_first s : lines s = first_line s :: tl (lines s).
Proof.
  induction s as [|c s IH]; [reflexivity|].
  unfold first_line in *. simpl. unfold is_dot at 1.
  destruct (c =? NL)%N; simpl; [reflexivity|].
  rewrite IH. destruct (span is_dot s); reflexivity.
Qed.

Lemma line_scan_lines : forall s pv,
  line_scan pv s =
  (if bol pv then opt_list (line_target (first_line s)) else [])
  ++ targets_of_lines (tl (lines s)).
Proof.
  induction s as [|c s IH]; intros pv.
  - reflexivity.
  - rewrite line_scan_cons. f_equal. rewrite IH. simpl.
    destruct (c =? NL)%N.
    + simpl. rewrite (lines_first s) at 2. reflexivity.
    + rewrite (lines_first s). reflexivity.
Qed.

(** [findall] with [target_pattern] reports, in order, the target of
    every line that declares one. *)
Lemma findall_target_lines s :
  findall target_pattern s = targets_of_lines (lines s).
Proof.
  unfold findall. rewrite findall_from_scan by lia.
  rewrite line_scan_lines. rewrite (lines_first s) at 2. reflexivity.
Qed.

End TargetPattern.

Unset Implicit Arguments.

(** ** Decimal rendering *)

Lemma digits_rev_value : forall fuel n,
  (N.log2 n < N.of_nat fuel)%N -> value_rev (digits_rev fuel n) = n.
Proof.
  induction fuel as [|fuel IH]; intros n Hlog; [simpl in Hlog; lia|].
  change (digits_rev (S fuel) n)
    with (if (n <? 10)%N then [(48 + n mod 10)%N]
          else (48 + n mod 10)%N :: digits_rev fuel (n / 10)%N).
  destruct (N.ltb_spec n 10) as [Hs|Hb].
  - cbn [value_rev fold_right]. rewrite N.mod_small by assumption. lia.
  - cbn [value_rev fold_right]. fold (value_rev (digits_rev fuel (n / 10))).
    rewrite IH.
    + pose proof (N.div_mod n 10 ltac:(lia)) as H.
      set (q := (n / 10)%N) in *. set (r := (n mod 10)%N) in *.
      clearbody q r. lia.
    + assert (H8 : (3 <= N.log2 n)%N).
      { change 3%N with (N.log2 8). apply N.log2_le_mono. lia. }
      assert (Hle : (N.log2 (n / 10) <= N.log2 (N.shiftr n 1))%N).
      { apply N.log2_le_mono. rewrite N.shiftr_div_pow2.
        change (2 ^ 1)%N with 2%N.
        apply N.div_le_lower_bound; [lia|].
        pose proof (N.div_mod n 10 ltac:(lia)) as H.
        set (q := (n / 10)%N) in *. set (r := (n mod 10)%N) in *.
        clearbody q r. lia. }
      rewrite N.log2_shiftr in Hle. lia.
Qed.

(** [str_of_Z] writes a minus sign for a negative number and then the
    decimal digits of its absolute value. *)
Lemma str_of_Z_value z :
  exists ds,
    str_of_Z z = (if (z <? 0)%Z then [45%N] else []) ++ ds /\
    value_rev (rev ds) = Z.abs_N z.
Proof.
  unfold str_of_Z.
  exists (rev (digits_rev (S (N.to_nat (N.log2 (Z.abs_N z)))) (Z.abs_N z))).
  split; [destruct (z <? 0)%Z; reflexivity|].
  rewrite rev_involutive. apply digits_rev_value. lia.
Qed.

(** ** Facts on the helpers *)

Lemma str_eqb_eq a b : str_eqb a b = true <-> a = b.
Proof.
  unfold str_eqb. destruct (str_eq_dec a b); split; congruence.
Qed.

Lemma mem_In x xs : mem x xs = true <-> In x xs.
Proof.
  unfold mem. rewrite existsb_exists. split.
  - intros [y [Hy E]]. apply str_eqb_eq in E. subst. exact Hy.
  - intros H. exists x. split; [exact H | apply str_eqb_eq; reflexivity].
Qed.

Lemma mem_not_In x xs : mem x xs = false <-> ~ In x xs.
Proof.
  rewrite <- mem_In. destruct (mem x xs); split; congruence.
Qed.

Lemma insert_sorted_perm x xs : Permutation (insert_sorted x xs) (x :: xs).
Proof.
  induction xs as [|y ys IH]; simpl; [reflexivity|].
  destruct (str_leb x y); [reflexivity|].
  rewrite IH. apply perm_swap.
Qed.

(** [sorted] rearranges and neither drops nor adds a name. *)
Lemma sorted_perm xs : Permutation (sorted xs) xs.
Proof.
  induction xs as [|x xs IH]; simpl; [reflexivity|].
  rewrite insert_sorted_perm. constructor. exact IH.
Qed.

Lemma sorted_In xs x : In x (sorted xs) <-> In x xs.
Proof.
  split; apply Permutation_in; [|symmetry]; apply sorted_perm.
Qed.

Lemma str_leb_total : forall a b, str_leb a b = false -> str_leb b a = true.
Proof.
  induction a as [|x a IH]; intros [|y b] H; simpl in *; try congruence.
  destruct (N.ltb_spec x y); [discriminate|].
  destruct (N.ltb_spec y x); [reflexivity|].
  apply IH. exact H.
Qed.

Lemma insert_sorted_sorted x xs :
  Sorted (fun a b => str_leb a b = true) xs ->
  Sorted (fun a b => str_leb a b = true) (insert_sorted x xs).
Proof.
  induction 1 as [|y ys Hs IH Hhd]; simpl.
  - repeat constructor.
  - destruct (str_leb x y) eqn:E.
    + constructor; [constructor; assumption|]. constructor. exact E.
    + constructor; [exact IH|].
      destruct ys as [|z zs]; simpl.
      * constructor. apply str_leb_total. exact E.
      * destruct (str_leb x z).
        -- constructor. apply str_leb_total. exact E.
        -- inversion Hhd; subst. constructor. assumption.
Qed.

(** [sorted] puts the names in ascending order. *)
Lemma sorted_sorted xs : Sorted (fun a b => str_leb a b = true) (sorted xs).
Proof.
  induction xs as [|x xs IH]; simpl; [constructor|].
  apply insert_sorted_sorted. exact IH.
Qed.

Lemma startswith_app x post : startswith (x ++ post) x = true.
Proof.
  induction x as [|c x IH]; simpl; [destruct post; reflexivity|].
  rewrite N.eqb_refl. exact IH.
Qed.

Lemma includesb_head s x : startswith s x = true -> includesb s x = true.
Proof. intros H. destruct s; simpl in *; rewrite H; reflexivity. Qed.

Lemma includes_includesb : forall s x, includes s x -> includesb s x = true.
Proof.
  intros s x [pre [post E]]. subst s.
  induction pre as [|c pre IH]; simpl.
  - apply includesb_head, startswith_app.
  - rewrite IH. apply orb_true_r.
Qed.

Lemma includes_right pre x : includes (pre ++ x) x.
Proof. exists pre, []. rewrite app_nil_r. reflexivity. Qed.

Lemma includes_app_l a b x : includes a x -> includes (a ++ b) x.
Proof.
  intros [pre [post E]]. exists pre, (post ++ b). subst.
  rewrite <- !app_assoc. reflexivity.
Qed.

Lemma includes_app_r a b x : includes b x -> includes (a ++ b) x.
Proof.
  intros [pre [post E]]. exists (a ++ pre), post. subst.
  rewrite <- !app_assoc. reflexivity.
Qed.

Lemma includes_refl x : includes x x.
Proof. exists [], []. rewrite app_nil_r. reflexivity. Qed.

Lemma code_out_err_verbatim pre p : verbatim_report p (pre ++ code_out_err p).
Proof.
  unfold verbatim_report, code_out_err. repeat split.
  - apply includes_app_r, includes_app_l, includes_refl.
  - do 5 apply includes_app_r. apply includes_app_l, includes_refl.
  - do 8 apply includes_app_r. apply includes_refl.
Qed.

Ltac unfold_m :=
  unfold bind, ret, try_except, lift, get_dir, set_dir, run in *; simpl in *.

Lemma bind_get_dir A (k : str -> M A) st :
  (dir <- get_dir ;; k dir) st = k (NEXTFLOW_DIR st) st.
Proof. reflexivity. Qed.

Lemma bind_eq A B (c : M A) (k : A -> M B) st a st' :
  c st = (Ret a, st') -> (x <- c ;; k x) st = k a st'.
Proof. unfold bind. intros ->. reflexivity. Qed.

Section ToolFacts.
Variable w : World.

Lemma targets_total st :
  exists targets, get_makefile_targets w st = (Ret targets, st).
Proof.
  unfold get_makefile_targets. unfold_m.
  destruct (isfile w _); simpl; [|eauto].
  destruct (read_text w _); eauto.
Qed.

Lemma targets_readable st content :
  isfile w (makefile_path st) = true ->
  read_text w (makefile_path st) = Ret content ->
  get_makefile_targets w st = (Ret (targets_of_lines (lines content)), st).
Proof.
  unfold makefile_path, get_makefile_targets. intros Hf Hr. unfold_m.
  rewrite Hf, Hr. simpl.
  rewrite TargetPattern.findall_target_lines. reflexivity.
Qed.

Lemma In_targets_of_lines name ls :
  In name (targets_of_lines ls) <->
  exists line, In line ls /\ declares line name.
Proof.
  unfold targets_of_lines. rewrite in_flat_map. split.
  - intros [l [Hl Hn]]. exists l. split; [exact Hl|].
    apply line_target_declares.
    destruct (line_target l); simpl in Hn; [|contradiction].
    destruct Hn as [->|[]]. reflexivity.
  - intros [l [Hl Hd]]. exists l. split; [exact Hl|].
    apply line_target_declares in Hd. rewrite Hd. left. reflexivity.
Qed.

Lemma count_targets_of_lines (name : str) ls :
  count_occ str_eq_dec (targets_of_lines ls) name
  = count_declaring name ls.
Proof.
  unfold count_declaring, targets_of_lines.
  induction ls as [|l ls IH]; [reflexivity|].
  cbn [flat_map filter]. rewrite count_occ_app. rewrite IH.
  destruct (line_target l) as [n|]; [|reflexivity].
  unfold str_eqb. cbn [opt_list count_occ].
  destruct (str_eq_dec n name); reflexivity.
Qed.

Lemma indented_declares_nothing c line name :
  is_space c = true -> ~ declares (c :: line) name.
Proof.
  intros Hc (Hne & Hn & ws & cm & _ & _ & E).
  destruct name as [|x nm]; [congruence|].
  inversion Hn as [|? ? Hx _]; subst.
  simpl in E. inversion E; subst.
  apply is_name_not_space in Hx. congruence.
Qed.
End ToolFacts.

(** C1 (as amended): for a Makefile that is there and readable, a name
    is among the targets [get_makefile_targets] returns if and only if
    some line of the file is, in its entirety, that name (one or more
    characters of [A-Za-z0-9_-]), a colon, optional white space and an
    optional comment starting with [#]; a line [foo:] yields [foo], and a
    line that starts with white space, like an indented [foo:], declares
    nothing. *)
Theorem target_discovery_by_line w st content :
  isfile w (makefile_path st) = true ->
  read_text w (makefile_path st) = Ret content ->
  exists targets,
    get_makefile_targets w st = (Ret targets, st) /\
    (forall name,
        In name targets <->
        exists line, In line (lines content) /\ declares line name) /\
    (In (u "foo:") (lines content) -> In (u "foo") targets) /\
    (forall name, ~ declares (u "  foo:") name) /\
    (forall c line name, is_space c = true -> ~ declares (c :: line) name).
Proof.
  intros Hf Hr. exists (targets_of_lines (lines content)).
  split; [apply targets_readable; assumption|].
  split; [intros name; apply In_targets_of_lines|].
  split; [|split].
  - intros H. apply In_targets_of_lines. exists (u "foo:").
    split; [exact H|]. apply line_target_declares. reflexivity.
  - intros name. apply indented_declares_nothing. reflexivity.
  - intros c line name. apply indented_declares_nothing.
Qed.

Lemma target_discovery_by_line_witness :
  exists targets,
    get_makefile_targets (world_with (u "foo: # build it") no_process) at_nf
    = (Ret targets, at_nf) /\
    In (u "foo") targets.
Proof.
  destruct (@target_discovery_by_line
              (world_with (u "foo: # build it") no_process) at_nf
              (u "foo: # build it") eq_refl eq_refl)
    as [targets [E [H _]]].
  exists targets. split; [exact E|].
  apply H. exists (u "foo: # build it"). split; [left; reflexivity|].
  apply line_target_declares. reflexivity.
Defined.

(** C1, counterexample: the file [foo: ] (a blank after the colon) has
    the target [foo], yet no line of it is exactly [foo:] or [foo:]
    followed by a comment. *)
Lemma target_discovery_exact_line_fails :
  get_makefile_targets (world_with (u "foo: ") no_process) at_nf
  = (Ret [u "foo"], at_nf) /\
  ~ (exists line, In line (lines (u "foo: ")) /\ declares_exactly line (u "foo")).
Proof.
  split; [reflexivity|].
  intros [line [Hl (_ & _ & Hd)]].
  destruct Hl as [<-|[]].
  destruct Hd as [E | [t E]]; discriminate E.
Qed.

(** C2 (as amended): for a Makefile that is there and readable,
    [get_makefile_targets] returns a list in file order with one entry
    for every declaring line; nothing is removed, so a name occurs in it
    as many times as there are lines declaring it. *)
Theorem target_discovery_one_per_line w st content :
  isfile w (makefile_path st) = true ->
  read_text w (makefile_path st) = Ret content ->
  exists targets,
    get_makefile_targets w st = (Ret targets, st) /\
    targets = targets_of_lines (lines content) /\
    forall name : str,
      count_occ str_eq_dec targets name = count_declaring name (lines content).
Proof.
  intros Hf Hr. exists (targets_of_lines (lines content)).
  split; [apply targets_readable; assumption|].
  split; [reflexivity|].
  intros name. apply count_targets_of_lines.
Qed.

Lemma target_discovery_one_per_line_witness :
  exists targets,
    get_makefile_targets (world_with two_foo no_process) at_nf
    = (Ret targets, at_nf) /\
    count_occ str_eq_dec targets (u "foo") = 2.
Proof.
  destruct (@target_discovery_one_per_line
              (world_with two_foo no_process) at_nf two_foo eq_refl eq_refl)
    as [targets [E [_ H]]].
  exists targets. split; [exact E|].
  rewrite H. reflexivity.
Defined.

(** C2, counterexample: a Makefile with the line [foo:] twice gives the
    name [foo] twice. *)
Lemma target_discovery_repeats :
  get_makefile_targets (world_with two_foo no_process) at_nf
  = (Ret [u "foo"; u "foo"], at_nf) /\
  ~ NoDup [u "foo"; u "foo"].
Proof.
  split; [reflexivity|].
  intros H. inversion H as [|? ? Hn _]; subst.
  apply Hn. left. reflexivity.
Qed.

(** C3, at the failing input: when [./nextflow -version] exits with
    code 1 and has written to its standard output only,
    [get_nextflow_version] reports the exit code and the (empty)
    standard error, and the captured standard output is not in the
    report. *)
Theorem version_failure_omits_stdout :
  get_nextflow_version (world_with [] java_missing) at_nf
  = (Ret (u "Error getting version. Exit code 1: "),
     after_run at_nf [u "./nextflow"; u "-version"]) /\
  ~ includes (u "Error getting version. Exit code 1: ") (u "JAVA_HOME is not set").
Proof.
  split; [reflexivity|].
  intros H. apply includes_includesb in H. vm_compute in H. discriminate H.
Qed.

Lemma verbatim_suffix p msg pre :
  msg = pre ++ code_out_err p -> verbatim_report p msg.
Proof. intros ->. apply code_out_err_verbatim. Qed.

Lemma nonzero_negb z : z <> 0%Z -> negb (z =? 0)%Z = true.
Proof.
  intros H. destruct (Z.eqb_spec z 0); [contradiction | reflexivity].
Qed.

Section FailureReports.
Variable w : World.
Variable st : State.
Variable p : CompletedProcess.
Hypothesis failed : returncode p <> 0%Z.

Let failed_b := nonzero_negb (returncode p) failed.

(** The six tools whose failure report carries all three items. *)
Lemma run_make_command_failure command targets :
  get_makefile_targets w st = (Ret targets, st) ->
  In command targets ->
  subprocess_run w [u "make"; command] (NEXTFLOW_DIR st) = Ret p ->
  exists msg, fst (run_make_command w command st) = Ret msg /\
              verbatim_report p msg.
Proof.
  intros Ht Hin Hp. unfold run_make_command.
  unfold bind at 1. rewrite Ht. unfold_m.
  apply mem_In in Hin. destruct targets as [|t ts]; [discriminate|].
  rewrite Hin, Hp. simpl. rewrite failed_b. simpl.
  eexists. split; [reflexivity|].
  apply verbatim_suffix
    with (pre := u "Command 'make " ++ command ++ u "' failed with exit code ").
  rewrite <- !app_assoc. reflexivity.
Qed.

Lemma run_specific_test_failure test_path :
  subprocess_run w [u "./gradlew"; u "test"; u "--tests"; test_path]
    (NEXTFLOW_DIR st) = Ret p ->
  exists msg, fst (run_specific_test w test_path st) = Ret msg /\
              verbatim_report p msg.
Proof.
  intros Hp. unfold run_specific_test. unfold_m.
  rewrite Hp. simpl. rewrite failed_b. simpl.
  eexists. split; [reflexivity|].
  apply verbatim_suffix with (pre := u "Test failed with exit code ").
  reflexivity.
Qed.

Lemma build_nextflow_failure targets target :
  get_makefile_targets w st = (Ret targets, st) ->
  (target = u "compile" /\ In (u "compile") targets) \/
  (target = u "build" /\ ~ In (u "compile") targets /\ In (u "build") targets) ->
  subprocess_run w [u "make"; target] (NEXTFLOW_DIR st) = Ret p ->
  exists msg, fst (build_nextflow w st) = Ret msg /\ verbatim_report p msg.
Proof.
  intros Ht Hsel Hp. unfold build_nextflow.
  unfold bind at 1. rewrite Ht. unfold_m.
  destruct Hsel as [[-> Hc] | [-> [Hc Hb]]].
  - apply mem_In in Hc. rewrite Hc. simpl.
    rewrite Hp. simpl. rewrite failed_b. simpl.
    eexists. split; [reflexivity|].
    apply verbatim_suffix with (pre := u "Build failed with exit code ").
    reflexivity.
  - apply mem_not_In in Hc. apply mem_In in Hb. rewrite Hc, Hb. simpl.
    rewrite Hp. simpl. rewrite failed_b. simpl.
    eexists. split; [reflexivity|].
    apply verbatim_suffix with (pre := u "Build failed with exit code ").
    reflexivity.
Qed.

Lemma run_integration_tests_failure :
  subprocess_run w [u "make"; u "test"] (NEXTFLOW_DIR st) = Ret p ->
  exists msg, fst (run_integration_tests w st) = Ret msg /\
              verbatim_report p msg.
Proof.
  intros Hp. unfold run_integration_tests. unfold_m.
  rewrite Hp. simpl. rewrite failed_b. simpl.
  eexists. split; [reflexivity|].
  apply verbatim_suffix
    with (pre := u "Integration tests failed with exit code ").
  reflexivity.
Qed.

Lemma run_plugin_test_failure module class_name :
  subprocess_run w
    ([u "make"; u "test"] ++ [u "module=" ++ module]
     ++ match class_name with
        | Some (c :: cs) => [u "class=" ++ (c :: cs)]
        | _ => []
        end) (NEXTFLOW_DIR st) = Ret p ->
  exists msg, fst (run_plugin_test w module class_name st) = Ret msg /\
              verbatim_report p msg.
Proof.
  intros Hp. unfold run_plugin_test.
  destruct class_name as [[|c cs]|]; unfold_m;
    rewrite Hp; simpl; rewrite failed_b; simpl;
    (eexists; split; [reflexivity|]);
    apply verbatim_suffix with (pre := u "Plugin test failed with exit code ");
    reflexivity.
Qed.

Lemma compile_step_failure command targets :
  isfile w (path_join (NEXTFLOW_DIR st) (u "launch.sh")) = true ->
  get_makefile_targets w st = (Ret targets, st) ->
  In (u "compile") targets ->
  subprocess_run w [u "make"; u "compile"] (NEXTFLOW_DIR st) = Ret p ->
  exists msg, fst (run_development_nextflow w command st) = Ret msg /\
              verbatim_report p msg.
Proof.
  intros Hl Ht Hc Hp. unfold run_development_nextflow.
  rewrite bind_get_dir, Hl. cbn [negb]. rewrite (@bind_eq _ _ _ _ _ _ _ Ht).
  apply mem_In in Hc. rewrite Hc. unfold compile_first. unfold_m.
  rewrite Hp. simpl. rewrite failed_b. simpl.
  eexists. split; [reflexivity|].
  unfold verbatim_report. repeat split.
  - exists (u "Failed to compile Nextflow before running:" ++ [NL] ++ u "Exit code: ").
    eexists. simpl. reflexivity.
  - exists (u "Failed to compile Nextflow before running:" ++ [NL]
            ++ u "Exit code: " ++ str_of_Z (returncode p) ++ [NL] ++ u "Stdout: ").
    eexists. rewrite <- ?app_assoc. simpl. rewrite <- ?app_assoc. reflexivity.
  - exists (u "Failed to compile Nextflow before running:" ++ [NL]
            ++ u "Exit code: " ++ str_of_Z (returncode p) ++ [NL]
            ++ u "Stdout: " ++ stdout p ++ [NL] ++ u "Stderr: ").
    exists []. rewrite app_nil_r. rewrite <- ?app_assoc. simpl.
    rewrite <- ?app_assoc. reflexivity.
Qed.

Lemma launch_step_failure command targets :
  isfile w (path_join (NEXTFLOW_DIR st) (u "launch.sh")) = true ->
  get_makefile_targets w st = (Ret targets, st) ->
  ~ In (u "compile") targets \/
  (exists q, subprocess_run w [u "make"; u "compile"] (NEXTFLOW_DIR st) = Ret q
             /\ returncode q = 0%Z) ->
  subprocess_run w
    ([u "./launch.sh"] ++ match command with
                          | [] => []
                          | _ => split_ws command
                          end) (NEXTFLOW_DIR st) = Ret p ->
  exists msg, fst (run_development_nextflow w command st) = Ret msg /\
              verbatim_report p msg.
Proof.
  intros Hl Ht Hc Hp. unfold run_development_nextflow.
  rewrite bind_get_dir, Hl. cbn [negb]. rewrite (@bind_eq _ _ _ _ _ _ _ Ht).
  assert (Hgo : exists st',
             (early <- (if mem (u "compile") targets
                        then compile_first w else ret None) ;;
              match early with
              | Some error_msg => ret error_msg
              | None => launch w command
              end) st = launch w command st'
             /\ NEXTFLOW_DIR st' = NEXTFLOW_DIR st).
  { destruct Hc as [Hc | [q [Hq Hz]]].
    - apply mem_not_In in Hc. rewrite Hc. exists st. split; reflexivity.
    - destruct (mem (u "compile") targets).
      + eexists. unfold compile_first. unfold_m. rewrite Hq. simpl.
        rewrite Hz. simpl. split; reflexivity.
      + exists st. split; reflexivity. }
  destruct Hgo as [st' [-> Hd]].
  unfold launch. unfold_m. rewrite Hd, Hp. simpl. rewrite failed_b. simpl.
  eexists. split; [reflexivity|].
  apply verbatim_suffix
    with (pre := u "Development Nextflow execution failed with exit code ").
  reflexivity.
Qed.
End FailureReports.



Lemma run_make_command_stranger w st command targets :
  get_makefile_targets w st = (Ret targets, st) ->
  ~ In command targets ->
  run_make_command w command st
  = (Ret (rejection (NEXTFLOW_DIR st) command targets), st).
Proof.
  intros Ht Hin. unfold run_make_command.
  rewrite (@bind_eq _ _ _ _ _ _ _ Ht), bind_get_dir.
  apply mem_not_In in Hin. destruct targets as [|t ts]; [reflexivity|].
  rewrite Hin. reflexivity.
Qed.



(** C6: for a name that is not among the discovered targets
    [run_make_command] returns an error text and leaves the record of
    child processes as it was: nothing is run. *)
Theorem run_make_command_rejects_before_running w st command targets :
  get_makefile_targets w st = (Ret targets, st) ->
  ~ In command targets ->
  exists msg,
    run_make_command w command st = (Ret msg, st) /\
    msg = rejection (NEXTFLOW_DIR st) command targets /\
    invoked (snd (run_make_command w command st)) = invoked st.
Proof.
  intros Ht Hin. exists (rejection (NEXTFLOW_DIR st) command targets).
  rewrite (run_make_command_stranger w st command targets Ht Hin).
  repeat split.
Qed.

Lemma run_make_command_rejects_before_running_witness :
  exists msg,
    run_make_command (world_with test_build no_process) (u "lint") at_nf
    = (Ret msg, at_nf) /\
    msg = u "Error: 'lint' is not a valid make target. Available targets are:"
          ++ [NL] ++ u "- build" ++ [NL] ++ u "- test".
Proof.
  destruct (@run_make_command_rejects_before_running
              (world_with test_build no_process) at_nf (u "lint")
              [u "test"; u "build"] eq_refl) as [msg [E [Hm _]]].
  - intros [H|[H|[]]]; discriminate H.
  - exists msg. split; [exact E|]. rewrite Hm. reflexivity.
Defined.



(** C8: [get_makefile_targets] always returns a list and never raises;
    the list is empty when the Makefile is missing and when reading it
    raises. *)
Theorem get_makefile_targets_total w st :
  exists targets,
    get_makefile_targets w st = (Ret targets, st) /\
    (isfile w (makefile_path st) = false -> targets = []) /\
    (forall e, read_text w (makefile_path st) = Raise e -> targets = []).
Proof.
  unfold makefile_path, get_makefile_targets. unfold_m.
  destruct (isfile w _) eqn:Hf; simpl.
  - destruct (read_text w _) as [content|e] eqn:Hr.
    + eexists. split; [reflexivity|]. split; [discriminate|].
      intros e He. discriminate He.
    + exists []. repeat split.
  - exists []. repeat split.
Qed.

(** C9: when discovery gives no target, [list_make_targets] answers
    with the could-not-find message and not with a list. *)
Theorem list_make_targets_none w st :
  get_makefile_targets w st = (Ret [], st) ->
  exists msg,
    list_make_targets w st = (Ret msg, st) /\
    msg = u "Could not find any make targets in " ++ NEXTFLOW_DIR st
          ++ u "/Makefile. Please check if the Nextflow directory is set correctly." /\
    startswith msg (u "Could not find any") = true /\
    startswith msg (u "Available make targets:") = false.
Proof.
  intros Ht. eexists. unfold list_make_targets.
  rewrite (@bind_eq _ _ _ _ _ _ _ Ht).
  split; [reflexivity|]. repeat split.
Qed.

Lemma list_make_targets_none_witness :
  exists msg,
    list_make_targets no_makefile at_nf = (Ret msg, at_nf) /\
    msg = u "Could not find any make targets in /nf/Makefile. Please check if the Nextflow directory is set correctly.".
Proof.
  destruct (@list_make_targets_none no_makefile at_nf eq_refl)
    as [msg [E [Hm _]]].
  exists msg. split; [exact E|]. rewrite Hm. reflexivity.
Defined.

(** C10: in [run_development_nextflow], when [launch.sh] is there,
    [compile] is among the discovered targets and [make compile] raises
    or exits with a nonzero code, [make compile] is the only child
    process of the call, so [./launch.sh] is not run, and the answer is
    the text of the compilation failure. *)
Theorem compile_failure_stops_launch w st command targets :
  isfile w (path_join (NEXTFLOW_DIR st) (u "launch.sh")) = true ->
  get_makefile_targets w st = (Ret targets, st) ->
  In (u "compile") targets ->
  match subprocess_run w [u "make"; u "compile"] (NEXTFLOW_DIR st) with
  | Ret p => returncode p <> 0%Z
  | Raise _ => True
  end ->
  run_development_nextflow w command st
  = (Ret match subprocess_run w [u "make"; u "compile"] (NEXTFLOW_DIR st) with
         | Ret p =>
             u "Failed to compile Nextflow before running:" ++ [NL]
             ++ u "Exit code: " ++ str_of_Z (returncode p) ++ [NL]
             ++ u "Stdout: " ++ stdout p ++ [NL]
             ++ u "Stderr: " ++ stderr p
         | Raise e => u "Exception during compilation: " ++ e
         end,
     after_run st [u "make"; u "compile"]).
Proof.
  intros Hl Ht Hc Hf. unfold run_development_nextflow.
  rewrite bind_get_dir, Hl. cbn [negb].
  rewrite (@bind_eq _ _ _ _ _ _ _ Ht).
  apply mem_In in Hc. rewrite Hc. unfold compile_first. unfold_m.
  destruct (subprocess_run w _ _) as [p|e]; [|reflexivity].
  destruct (Z.eqb_spec (returncode p) 0); [contradiction|]. reflexivity.
Qed.

Lemma compile_failure_stops_launch_witness :
  run_development_nextflow (world_with compile_only compile_breaks)
    (u "run hello.nf") at_nf
  = (Ret (u "Failed to compile Nextflow before running:" ++ [NL]
          ++ u "Exit code: 2" ++ [NL] ++ u "Stdout: Compiling" ++ [NL]
          ++ u "Stderr: error: x"),
     {| NEXTFLOW_DIR := u "/nf";
        invoked := [([u "make"; u "compile"], u "/nf")] |}).
Proof.
  refine (@compile_failure_stops_launch
            (world_with compile_only compile_breaks) at_nf (u "run hello.nf")
            [u "compile"] eq_refl eq_refl (or_introl eq_refl) _).
  simpl. discriminate.
Defined.

(** ** The scenario of the specification, run *)

Example scenario_discover :
  get_makefile_targets (world_with test_build no_process) at_nf
  = (Ret [u "test"; u "build"], at_nf).
Proof. reflexivity. Qed.

Example scenario_list :
  fst (list_make_targets (world_with test_build no_process) at_nf)
  = Ret (u "Available make targets:" ++ [NL] ++ u "- build" ++ [NL] ++ u "- test").
Proof. reflexivity. Qed.

Example scenario_test_succeeds :
  run_make_command (world_with test_build make_ok) (u "test") at_nf
  = (Ret (u "Command 'make test' succeeded:" ++ [NL] ++ u "4 passed"),
     {| NEXTFLOW_DIR := u "/nf"; invoked := [([u "make"; u "test"], u "/nf")] |}).
Proof. reflexivity. Qed.

Example scenario_test_fails :
  fst (run_make_command (world_with test_build java_missing) (u "test") at_nf)
  = Ret (u "Command 'make test' failed with exit code 1:" ++ [NL]
         ++ u "Stdout: JAVA_HOME is not set" ++ [NL] ++ u "Stderr: ").
Proof. reflexivity. Qed.

Example development_run_launches :
  run_development_nextflow (world_with compile_only make_ok) (u "run  hello.nf") at_nf
  = (Ret (u "Development Nextflow execution succeeded:" ++ [NL] ++ u "4 passed"),
     {| NEXTFLOW_DIR := u "/nf";
        invoked := [([u "make"; u "compile"], u "/nf");
                    ([u "./launch.sh"; u "run"; u "hello.nf"], u "/nf")] |}).
Proof. reflexivity. Qed.

Example set_directory_then_get :
  (_ <- set_nextflow_directory (world_with [] no_process) (u "/nf") ;;
   get_nextflow_directory)
    {| NEXTFLOW_DIR := u "/home/me/nextflow"; invoked := [] |}
  = (Ret (u "Current Nextflow directory: /nf"),
     {| NEXTFLOW_DIR := u "/nf"; invoked := [] |}).
Proof. reflexivity. Qed.

(** ** The documentation resource, run *)

Example docs_testing_head :
  firstn 30 (get_nextflow_docs (u "testing")) = [NL] ++ u "# Nextflow Testing Guidelines".
Proof. reflexivity. Qed.

Example debug_error_ex :
  firstn 68 (debug_error (u "boom"))
  = [NL] ++ u "I'm encountering the following error while developing Nextflow:"
    ++ [NL; NL] ++ u "bo".
Proof. reflexivity. Qed.

(** ** Lines of a joined text *)

Lemma lines_nonempty s : lines s <> [].
Proof.
  destruct s as [|c s]; simpl; [discriminate|].
  destruct (c =? NL)%N; [discriminate|].
  destruct (lines s); discriminate.
Qed.

Lemma lines_dot_app : forall h s,
  all is_dot h -> lines (h ++ s) = (h ++ hd [] (lines s)) :: tl (lines s).
Proof.
  induction h as [|c h IH]; intros s H; simpl.
  - pose proof (lines_nonempty s). destruct (lines s); [contradiction | reflexivity].
  - inversion H as [|? ? Hc Hh]; subst.
    unfold is_dot in Hc. destruct (c =? NL)%N; [discriminate|].
    rewrite (IH s Hh). reflexivity.
Qed.

Lemma lines_dot h : all is_dot h -> lines h = [h].
Proof.
  intros H. rewrite <- (app_nil_r h) at 1.
  rewrite (lines_dot_app h [] H). simpl. rewrite app_nil_r. reflexivity.
Qed.

Lemma lines_dot_nl h s : all is_dot h -> lines (h ++ NL :: s) = h :: lines s.
Proof.
  intros H. rewrite (lines_dot_app h (NL :: s) H). simpl.
  rewrite app_nil_r. reflexivity.
Qed.

(** The lines of two texts put together with a newline between them. *)
Lemma lines_app_nl : forall a b, lines (a ++ NL :: b) = lines a ++ lines b.
Proof.
  induction a as [|c a IH]; intros b; [reflexivity|].
  simpl. destruct (c =? NL)%N.
  - rewrite IH. reflexivity.
  - rewrite IH. pose proof (lines_nonempty a).
    destruct (lines a); [contradiction | reflexivity].
Qed.

Lemma lines_join : forall xs,
  xs <> [] -> Forall (all is_dot) xs -> lines (join [NL] xs) = xs.
Proof.
  induction xs as [|x xs IH]; intros Hne H; [congruence|].
  inversion H as [|? ? Hx Hxs]; subst.
  destruct xs as [|y ys].
  - simpl. apply lines_dot. exact Hx.
  - change (join [NL] (x :: y :: ys)) with (x ++ NL :: join [NL] (y :: ys)).
    rewrite (lines_dot_nl x _ Hx). f_equal. apply IH; [discriminate | exact Hxs].
Qed.

(** ** [strip] *)

Lemma lstrip_spec s :
  exists ws, s = ws ++ lstrip s /\ all is_space ws /\
             match lstrip s with [] => True | c :: _ => is_space c = false end.
Proof.
  induction s as [|c s IH]; simpl.
  - exists []. repeat split. constructor.
  - destruct (is_space c) eqn:Hc.
    + destruct IH as [ws [E [Hw Hh]]]. exists (c :: ws). repeat split.
      * simpl. f_equal. exact E.
      * constructor; assumption.
      * exact Hh.
    + exists []. repeat split; [constructor | exact Hc].
Qed.

Lemma all_rev p x : all p x -> all p (rev x).
Proof. intros H. apply Forall_rev. exact H. Qed.

(** [strip] takes white space away at both ends and nothing else. *)
Lemma strip_spec s :
  exists ws1 ws2,
    s = ws1 ++ strip s ++ ws2 /\ all is_space ws1 /\ all is_space ws2 /\
    match strip s with [] => True | c :: _ => is_space c = false end /\
    match rev (strip s) with [] => True | c :: _ => is_space c = false end.
Proof.
  unfold strip.
  destruct (lstrip_spec s) as [ws1 [E1 [H1 Hh1]]].
  destruct (lstrip_spec (rev (lstrip s))) as [ws2 [E2 [H2 Hh2]]].
  exists ws1, (rev ws2).
  assert (E : lstrip s = rev (lstrip (rev (lstrip s))) ++ rev ws2).
  { rewrite <- rev_app_distr, <- E2, rev_involutive. reflexivity. }
  split; [|split; [|split; [|split]]].
  - rewrite <- E. exact E1.
  - exact H1.
  - apply all_rev. exact H2.
  - destruct (rev (lstrip (rev (lstrip s)))) as [|c r] eqn:Er; [exact I|].
    rewrite E in Hh1. simpl in Hh1. exact Hh1.
  - rewrite rev_involutive. exact Hh2.
Qed.

(** ** [split] *)




(** ** What every tool call leaves behind *)

Lemma grown_refl st n : grown st st n.
Proof.
  split; [reflexivity|]. exists []. rewrite app_nil_r.
  repeat split; [simpl; lia | constructor].
Qed.

Lemma grown_one st argv n : 1 <= n -> grown st (after_run st argv) n.
Proof.
  intros Hn. split; [reflexivity|]. exists [(argv, NEXTFLOW_DIR st)].
  repeat split; [simpl; lia | repeat constructor].
Qed.

Lemma grown_two st argv1 argv2 n :
  2 <= n -> grown st (after_run (after_run st argv1) argv2) n.
Proof.
  intros Hn. split; [reflexivity|].
  exists [(argv1, NEXTFLOW_DIR st); (argv2, NEXTFLOW_DIR st)].
  repeat split; [simpl; rewrite <- app_assoc; reflexivity | simpl; lia
                | repeat constructor].
Qed.

Ltac ends_here :=
  do 2 eexists; split; [reflexivity|];
  first [apply grown_refl | apply grown_one; lia | apply grown_two; lia].

(** The shape shared by the tools that run one command. *)
Lemma one_command_ends_well w st argv
      (report : CompletedProcess -> M str) (handler : str -> M str) :
  (forall p s, exists msg, report p s = (Ret msg, s)) ->
  (forall e s, exists msg, handler e s = (Ret msg, s)) ->
  ends_well
    (try_except (process <- run w argv (NEXTFLOW_DIR st) ;; report process)
       handler st) st 1.
Proof.
  intros Hr Hh. unfold try_except, bind, run.
  destruct (subprocess_run w argv (NEXTFLOW_DIR st)) as [p|e].
  - destruct (Hr p (after_run st argv)) as [msg E].
    unfold after_run in E. rewrite E.
    do 2 eexists. split; [reflexivity|]. apply (grown_one st argv). lia.
  - destruct (Hh e (after_run st argv)) as [msg E].
    unfold after_run in E. rewrite E.
    do 2 eexists. split; [reflexivity|]. apply (grown_one st argv). lia.
Qed.

Ltac report_ok :=
  intros; unfold ret; try match goal with
                          | |- context [negb ?b] => destruct (negb b)
                          end; eexists; reflexivity.

Lemma run_make_command_ends_well w st command :
  ends_well (run_make_command w command st) st 1.
Proof.
  destruct (targets_total w st) as [ts Ht]. unfold run_make_command.
  rewrite (@bind_eq _ _ _ _ _ _ _ Ht), bind_get_dir.
  destruct ts as [|t ts]; [ends_here|].
  destruct (negb (mem command (t :: ts))); [ends_here|].
  apply one_command_ends_well; report_ok.
Qed.

Lemma run_specific_test_ends_well w st test_path :
  ends_well (run_specific_test w test_path st) st 1.
Proof.
  unfold run_specific_test. rewrite bind_get_dir.
  apply one_command_ends_well; report_ok.
Qed.

Lemma build_nextflow_ends_well w st :
  ends_well (build_nextflow w st) st 1.
Proof.
  destruct (targets_total w st) as [ts Ht]. unfold build_nextflow.
  rewrite (@bind_eq _ _ _ _ _ _ _ Ht), bind_get_dir.
  destruct (negb (mem (u "compile") ts)).
  - destruct (mem (u "build") ts); [|ends_here].
    apply one_command_ends_well; report_ok.
  - apply one_command_ends_well; report_ok.
Qed.

Lemma run_integration_tests_ends_well w st :
  ends_well (run_integration_tests w st) st 1.
Proof.
  unfold run_integration_tests. rewrite bind_get_dir.
  apply one_command_ends_well; report_ok.
Qed.

Lemma get_nextflow_version_ends_well w st :
  ends_well (get_nextflow_version w st) st 1.
Proof.
  unfold get_nextflow_version. rewrite bind_get_dir.
  apply one_command_ends_well; report_ok.
Qed.

Lemma run_plugin_test_ends_well w st module class_name :
  ends_well (run_plugin_test w module class_name st) st 1.
Proof.
  unfold run_plugin_test. rewrite bind_get_dir.
  apply one_command_ends_well; report_ok.
Qed.

Lemma list_make_targets_ends_well w st :
  ends_well (list_make_targets w st) st 0.
Proof.
  destruct (targets_total w st) as [ts Ht]. unfold list_make_targets.
  rewrite (@bind_eq _ _ _ _ _ _ _ Ht).
  destruct ts; ends_here.
Qed.

Lemma run_development_nextflow_ends_well w st command :
  ends_well (run_development_nextflow w command st) st 2.
Proof.
  destruct (targets_total w st) as [ts Ht]. unfold run_development_nextflow.
  rewrite bind_get_dir.
  destruct (negb (isfile w _)); [ends_here|].
  rewrite (@bind_eq _ _ _ _ _ _ _ Ht).
  unfold compile_first, launch, bind, try_except, run, ret, get_dir.
  destruct (mem (u "compile") ts); cbn [NEXTFLOW_DIR invoked].
  - destruct (subprocess_run w [u "make"; u "compile"] (NEXTFLOW_DIR st)) as [p|e];
      [|ends_here].
    destruct (negb (returncode p =? 0)%Z); [ends_here|].
    cbn [NEXTFLOW_DIR invoked].
    destruct (subprocess_run w _ (NEXTFLOW_DIR st)) as [q|e]; [|ends_here].
    destruct (negb (returncode q =? 0)%Z); ends_here.
  - destruct (subprocess_run w _ (NEXTFLOW_DIR st)) as [q|e]; [|ends_here].
    destruct (negb (returncode q =? 0)%Z); ends_here.
Qed.


Lemma ends_well_grown r st n : ends_well r st n -> grown st (snd r) n.
Proof. intros (msg & st' & -> & H). exact H. Qed.

(** ** Further properties of the tools *)


(** X2: no tool but [set_nextflow_directory] changes [NEXTFLOW_DIR];
    a tool only adds to the record of child processes, every process it
    adds runs in [NEXTFLOW_DIR], and it adds none for listing the targets,
    at most two for [run_development_nextflow] and at most one for the
    others. *)
Theorem tools_append_child_processes w st :
  grown st (snd (list_make_targets w st)) 0 /\
  grown st (snd (get_nextflow_directory st)) 0 /\
  (forall command, grown st (snd (run_make_command w command st)) 1) /\
  (forall test_path, grown st (snd (run_specific_test w test_path st)) 1) /\
  grown st (snd (build_nextflow w st)) 1 /\
  grown st (snd (run_integration_tests w st)) 1 /\
  grown st (snd (get_nextflow_version w st)) 1 /\
  (forall command, grown st (snd (run_development_nextflow w command st)) 2) /\
  (forall module class_name,
      grown st (snd (run_plugin_test w module class_name st)) 1).
Proof.
  split; [|split; [|split; [|split; [|split; [|split; [|split; [|split]]]]]]];
    intros.
  - apply ends_well_grown, list_make_targets_ends_well.
  - apply grown_refl.
  - apply ends_well_grown, run_make_command_ends_well.
  - apply ends_well_grown, run_specific_test_ends_well.
  - apply ends_well_grown, build_nextflow_ends_well.
  - apply ends_well_grown, run_integration_tests_ends_well.
  - apply ends_well_grown, get_nextflow_version_ends_well.
  - apply ends_well_grown, run_development_nextflow_ends_well.
  - apply ends_well_grown, run_plugin_test_ends_well.
Qed.


(** X4: a path that expands to an existing directory is accepted:
    [NEXTFLOW_DIR] becomes the expanded path, also when neither
    [Makefile] nor [build.gradle] is in it; in that case the answer is
    the warning, otherwise the confirmation. *)
Theorem set_nextflow_directory_accepts w st path :
  isdir w (expanduser w path) = true ->
  set_nextflow_directory w path st
  = (Ret (if isfile w (path_join (expanduser w path) (u "Makefile"))
             || isfile w (path_join (expanduser w path) (u "build.gradle"))
          then u "Nextflow directory set to: " ++ expanduser w path
          else u "Warning: '" ++ expanduser w path
               ++ u "' might not be a Nextflow repository. Setting anyway."),
     {| NEXTFLOW_DIR := expanduser w path; invoked := invoked st |}).
Proof.
  intros H. unfold set_nextflow_directory. rewrite H. cbn [negb].
  destruct (isfile w _ || isfile w _); reflexivity.
Qed.

Lemma set_nextflow_directory_accepts_witness :
  set_nextflow_directory (world_with [] no_process) (u "/nf")
    {| NEXTFLOW_DIR := u "/home/me/nextflow"; invoked := [] |}
  = (Ret (u "Nextflow directory set to: /nf"),
     {| NEXTFLOW_DIR := u "/nf"; invoked := [] |}).
Proof.
  exact (set_nextflow_directory_accepts (world_with [] no_process)
           {| NEXTFLOW_DIR := u "/home/me/nextflow"; invoked := [] |}
           (u "/nf") eq_refl).
Defined.

(** X5: once a directory is accepted, the next tool runs its child
    process there: [run_integration_tests] after
    [set_nextflow_directory] runs [make test] in the expanded path. *)
Theorem accepted_directory_is_used w st path :
  isdir w (expanduser w path) = true ->
  snd ((_ <- set_nextflow_directory w path ;; run_integration_tests w) st)
  = {| NEXTFLOW_DIR := expanduser w path;
       invoked := invoked st ++ [([u "make"; u "test"], expanduser w path)] |}.
Proof.
  intros H. unfold bind at 1.
  rewrite (set_nextflow_directory_accepts w st path H).
  unfold run_integration_tests, bind, try_except, run, get_dir, ret.
  cbn [NEXTFLOW_DIR invoked].
  destruct (subprocess_run w _ _) as [p|e]; [|reflexivity].
  destruct (negb _); reflexivity.
Qed.

Lemma accepted_directory_is_used_witness :
  snd ((_ <- set_nextflow_directory (world_with [] make_ok) (u "/nf") ;;
        run_integration_tests (world_with [] make_ok))
         {| NEXTFLOW_DIR := u "/home/me/nextflow"; invoked := [] |})
  = {| NEXTFLOW_DIR := u "/nf";
       invoked := [([u "make"; u "test"], u "/nf")] |}.
Proof.
  exact (accepted_directory_is_used (world_with [] make_ok)
           {| NEXTFLOW_DIR := u "/home/me/nextflow"; invoked := [] |}
           (u "/nf") eq_refl).
Defined.

(** X6: when the child process exits with a nonzero code, the report of
    [run_specific_test], [run_integration_tests], [run_plugin_test],
    [run_make_command] (for a discovered target) and [build_nextflow]
    (for the target it selects) carries the exit code, the captured
    standard output and the captured standard error as they are. *)
Theorem failure_reports_are_verbatim w st p :
  returncode p <> 0%Z ->
  (forall test_path,
      subprocess_run w [u "./gradlew"; u "test"; u "--tests"; test_path]
        (NEXTFLOW_DIR st) = Ret p ->
      exists msg, fst (run_specific_test w test_path st) = Ret msg /\
                  verbatim_report p msg) /\
  (subprocess_run w [u "make"; u "test"] (NEXTFLOW_DIR st) = Ret p ->
   exists msg, fst (run_integration_tests w st) = Ret msg /\
               verbatim_report p msg) /\
  (forall module class_name,
      subprocess_run w (plugin_argv module class_name) (NEXTFLOW_DIR st) = Ret p ->
      exists msg, fst (run_plugin_test w module class_name st) = Ret msg /\
                  verbatim_report p msg) /\
  (forall command targets,
      get_makefile_targets w st = (Ret targets, st) ->
      In command targets ->
      subprocess_run w [u "make"; command] (NEXTFLOW_DIR st) = Ret p ->
      exists msg, fst (run_make_command w command st) = Ret msg /\
                  verbatim_report p msg) /\
  (forall targets target,
      get_makefile_targets w st = (Ret targets, st) ->
      (target = u "compile" /\ In (u "compile") targets) \/
      (target = u "build" /\ ~ In (u "compile") targets /\ In (u "build") targets) ->
      subprocess_run w [u "make"; target] (NEXTFLOW_DIR st) = Ret p ->
      exists msg, fst (build_nextflow w st) = Ret msg /\ verbatim_report p msg).
Proof.
  intros Hp. split; [|split; [|split; [|split]]]; intros.
  - apply run_specific_test_failure; assumption.
  - apply run_integration_tests_failure; assumption.
  - apply run_plugin_test_failure; assumption.
  - eapply run_make_command_failure; eassumption.
  - eapply build_nextflow_failure; eassumption.
Qed.

Lemma failure_reports_are_verbatim_witness :
  exists msg,
    fst (run_integration_tests (world_with test_build (always failing)) at_nf)
    = Ret msg /\
    verbatim_report failing msg.
Proof.
  destruct (failure_reports_are_verbatim
              (world_with test_build (always failing)) at_nf failing)
    as (_ & H & _).
  - simpl. discriminate.
  - apply H. reflexivity.
Defined.

(** X7: in [run_development_nextflow] a nonzero exit of either step,
    [make compile] or the launch script, gives a report with the exit
    code, the standard output and the standard error of that step. *)
Theorem development_failure_reports_are_verbatim w st p command targets :
  returncode p <> 0%Z ->
  isfile w (path_join (NEXTFLOW_DIR st) (u "launch.sh")) = true ->
  get_makefile_targets w st = (Ret targets, st) ->
  (In (u "compile") targets ->
   subprocess_run w [u "make"; u "compile"] (NEXTFLOW_DIR st) = Ret p ->
   exists msg, fst (run_development_nextflow w command st) = Ret msg /\
               verbatim_report p msg) /\
  (~ In (u "compile") targets \/
   (exists q, subprocess_run w [u "make"; u "compile"] (NEXTFLOW_DIR st) = Ret q
              /\ returncode q = 0%Z) ->
   subprocess_run w (launch_argv command) (NEXTFLOW_DIR st) = Ret p ->
   exists msg, fst (run_development_nextflow w command st) = Ret msg /\
               verbatim_report p msg).
Proof.
  intros Hp Hl Ht. split; intros.
  - eapply compile_step_failure; eassumption.
  - eapply launch_step_failure; eassumption.
Qed.

Lemma development_failure_reports_are_verbatim_witness :
  exists msg,
    fst (run_development_nextflow (world_with test_build (always failing))
           (u "run hello.nf") at_nf) = Ret msg /\
    verbatim_report failing msg.
Proof.
  destruct (development_failure_reports_are_verbatim
              (world_with test_build (always failing)) at_nf failing
              (u "run hello.nf") [u "test"; u "build"])
    as (_ & H).
  - simpl. discriminate.
  - reflexivity.
  - reflexivity.
  - apply H; [|reflexivity].
    left. intros [E|[E|[]]]; discriminate E.
Defined.

(** X8: when [subprocess.run] itself raises, the tool answers with its
    own prefix followed by the text of the exception. *)
Theorem exception_reports w st e :
  (forall test_path,
      subprocess_run w [u "./gradlew"; u "test"; u "--tests"; test_path]
        (NEXTFLOW_DIR st) = Raise e ->
      fst (run_specific_test w test_path st)
      = Ret (u "Exception running test " ++ test_path ++ u ": " ++ e)) /\
  (subprocess_run w [u "make"; u "test"] (NEXTFLOW_DIR st) = Raise e ->
   fst (run_integration_tests w st)
   = Ret (u "Exception running integration tests: " ++ e)) /\
  (subprocess_run w [u "./nextflow"; u "-version"] (NEXTFLOW_DIR st) = Raise e ->
   fst (get_nextflow_version w st)
   = Ret (u "Exception getting Nextflow version: " ++ e)) /\
  (forall module class_name,
      subprocess_run w (plugin_argv module class_name) (NEXTFLOW_DIR st) = Raise e ->
      fst (run_plugin_test w module class_name st)
      = Ret (u "Exception during plugin test: " ++ e)) /\
  (forall command targets,
      get_makefile_targets w st = (Ret targets, st) ->
      In command targets ->
      subprocess_run w [u "make"; command] (NEXTFLOW_DIR st) = Raise e ->
      fst (run_make_command w command st)
      = Ret (u "Exception running make " ++ command ++ u ": " ++ e)).
Proof.
  split; [|split; [|split; [|split]]].
  - intros test_path H. unfold run_specific_test. unfold_m. rewrite H. reflexivity.
  - intros H. unfold run_integration_tests. unfold_m. rewrite H. reflexivity.
  - intros H. unfold get_nextflow_version. unfold_m. rewrite H. reflexivity.
  - intros module class_name H. unfold run_plugin_test.
    unfold bind, try_except, run, get_dir, ret.
    unfold plugin_argv in H. rewrite H. reflexivity.
  - intros command targets Ht Hin H. unfold run_make_command.
    rewrite (@bind_eq _ _ _ _ _ _ _ Ht), bind_get_dir.
    apply mem_In in Hin. destruct targets as [|t ts]; [discriminate|].
    rewrite Hin. unfold_m. rewrite H. reflexivity.
Qed.

(** X9: when the child process exits with code 0, the report is the
    tool's heading, a newline and the captured standard output as it
    is. *)
Theorem success_reports w st p :
  returncode p = 0%Z ->
  (forall test_path,
      subprocess_run w [u "./gradlew"; u "test"; u "--tests"; test_path]
        (NEXTFLOW_DIR st) = Ret p ->
      fst (run_specific_test w test_path st)
      = Ret (u "Test completed successfully:" ++ [NL] ++ stdout p)) /\
  (subprocess_run w [u "make"; u "test"] (NEXTFLOW_DIR st) = Ret p ->
   fst (run_integration_tests w st)
   = Ret (u "Integration tests completed:" ++ [NL] ++ stdout p)) /\
  (forall module class_name,
      subprocess_run w (plugin_argv module class_name) (NEXTFLOW_DIR st) = Ret p ->
      fst (run_plugin_test w module class_name st)
      = Ret (u "Plugin test completed successfully:" ++ [NL] ++ stdout p)) /\
  (forall command targets,
      get_makefile_targets w st = (Ret targets, st) ->
      In command targets ->
      subprocess_run w [u "make"; command] (NEXTFLOW_DIR st) = Ret p ->
      fst (run_make_command w command st)
      = Ret (u "Command 'make " ++ command ++ u "' succeeded:" ++ [NL] ++ stdout p)).
Proof.
  intros Hz. split; [|split; [|split]].
  - intros test_path H. unfold run_specific_test. unfold_m.
    rewrite H. simpl. rewrite Hz. reflexivity.
  - intros H. unfold run_integration_tests. unfold_m.
    rewrite H. simpl. rewrite Hz. reflexivity.
  - intros module class_name H. unfold run_plugin_test.
    unfold bind, try_except, run, get_dir, ret.
    unfold plugin_argv in H. rewrite H. rewrite Hz. reflexivity.
  - intros command targets Ht Hin H. unfold run_make_command.
    rewrite (@bind_eq _ _ _ _ _ _ _ Ht), bind_get_dir.
    apply mem_In in Hin. destruct targets as [|t ts]; [discriminate|].
    rewrite Hin. unfold_m. rewrite H. simpl. rewrite Hz. reflexivity.
Qed.

Lemma success_reports_witness :
  fst (run_make_command (world_with test_build make_ok) (u "build") at_nf)
  = Ret (u "Command 'make build' succeeded:" ++ [NL] ++ u "4 passed").
Proof.
  destruct (success_reports (world_with test_build make_ok) at_nf
              {| returncode := 0; stdout := u "4 passed"; stderr := [] |}
              eq_refl) as (_ & _ & _ & H).
  apply (H (u "build") [u "test"; u "build"] eq_refl).
  - right. left. reflexivity.
  - reflexivity.
Defined.

(** X10: the version [get_nextflow_version] returns on success is the
    standard output of [./nextflow -version] with the white space at both
    ends taken away and nothing else changed. *)
Theorem version_is_stripped_output w st p :
  subprocess_run w [u "./nextflow"; u "-version"] (NEXTFLOW_DIR st) = Ret p ->
  returncode p = 0%Z ->
  exists version ws1 ws2,
    fst (get_nextflow_version w st) = Ret version /\
    stdout p = ws1 ++ version ++ ws2 /\
    all is_space ws1 /\ all is_space ws2 /\
    match version with [] => True | c :: _ => is_space c = false end /\
    match rev version with [] => True | c :: _ => is_space c = false end.
Proof.
  intros H Hz.
  destruct (strip_spec (stdout p)) as (ws1 & ws2 & E & H1 & H2 & Hh & Ht).
  exists (strip (stdout p)), ws1, ws2.
  split; [|repeat split; assumption].
  unfold get_nextflow_version. unfold_m. rewrite H. simpl. rewrite Hz. reflexivity.
Qed.

Lemma version_is_stripped_output_witness :
  fst (get_nextflow_version (world_with [] (always version_ok)) at_nf)
  = Ret (u "nextflow version 24.04.0").
Proof.
  destruct (version_is_stripped_output (world_with [] (always version_ok))
              at_nf version_ok eq_refl eq_refl)
    as (v & ws1 & ws2 & E & _).
  rewrite E. f_equal. vm_compute in E. inversion E. reflexivity.
Defined.

Lemma launch_argv_words command : launch_argv command = u "./launch.sh" :: split_ws command.
Proof. destruct command; reflexivity. Qed.



(** X12: when the launch script is there, [compile] is discovered and
    [make compile] exits with code 0, [run_development_nextflow] runs
    two processes, [make compile] first and the launch script second,
    and answers with the outcome of the launch script alone. *)
Theorem compile_then_launch w st command targets q :
  isfile w (path_join (NEXTFLOW_DIR st) (u "launch.sh")) = true ->
  get_makefile_targets w st = (Ret targets, st) ->
  In (u "compile") targets ->
  subprocess_run w [u "make"; u "compile"] (NEXTFLOW_DIR st) = Ret q ->
  returncode q = 0%Z ->
  run_development_nextflow w command st
  = launch w command (after_run st [u "make"; u "compile"]) /\
  snd (run_development_nextflow w command st)
  = after_run (after_run st [u "make"; u "compile"])
      (u "./launch.sh" :: split_ws command).
Proof.
  intros Hl Ht Hc Hq Hz.
  assert (E : run_development_nextflow w command st
              = launch w command (after_run st [u "make"; u "compile"])).
  { unfold run_development_nextflow.
    rewrite bind_get_dir, Hl. cbn [negb].
    rewrite (@bind_eq _ _ _ _ _ _ _ Ht).
    apply mem_In in Hc. rewrite Hc.
    unfold compile_first, bind, try_except, run, get_dir, ret.
    rewrite Hq, Hz. reflexivity. }
  split; [exact E|]. rewrite E.
  unfold launch, bind, try_except, run, get_dir, ret.
  fold (launch_argv command). rewrite launch_argv_words.
  cbn [NEXTFLOW_DIR invoked after_run].
  destruct (subprocess_run w (u "./launch.sh" :: split_ws command)
              (NEXTFLOW_DIR st)) as [p|e]; [|reflexivity].
  destruct (negb _); reflexivity.
Qed.

Lemma compile_then_launch_witness :
  invoked (snd (run_development_nextflow (world_with compile_only make_ok)
                  (u "-version") at_nf))
  = [([u "make"; u "compile"], u "/nf"); ([u "./launch.sh"; u "-version"], u "/nf")].
Proof.
  destruct (compile_then_launch (world_with compile_only make_ok) at_nf
              (u "-version") [u "compile"]
              {| returncode := 0; stdout := u "4 passed"; stderr := [] |}
              eq_refl eq_refl (or_introl eq_refl) eq_refl eq_refl) as (_ & E).
  rewrite E. reflexivity.
Defined.

(** X13: without [launch.sh] in [NEXTFLOW_DIR],
    [run_development_nextflow] answers with an error that names the path
    it looked at and runs nothing, not even [make compile]. *)
Theorem missing_launch_script_runs_nothing w st command :
  isfile w (path_join (NEXTFLOW_DIR st) (u "launch.sh")) = false ->
  run_development_nextflow w command st
  = (Ret (u "Error: launch.sh script not found at "
          ++ path_join (NEXTFLOW_DIR st) (u "launch.sh")
          ++ u ". Make sure the Nextflow directory is correct."),
     st).
Proof.
  intros H. unfold run_development_nextflow.
  rewrite bind_get_dir, H. reflexivity.
Qed.

Lemma missing_launch_script_runs_nothing_witness :
  run_development_nextflow no_makefile (u "run hello.nf") at_nf
  = (Ret (u "Error: launch.sh script not found at /nf/launch.sh. Make sure the Nextflow directory is correct."),
     at_nf).
Proof.
  exact (missing_launch_script_runs_nothing no_makefile at_nf
           (u "run hello.nf") eq_refl).
Defined.

Lemma targets_of_lines_ok ls : Forall name_ok (targets_of_lines ls).
Proof.
  apply Forall_forall. intros n Hn.
  apply In_targets_of_lines in Hn. destruct Hn as (line & _ & Hne & Hall & _).
  split; assumption.
Qed.

Lemma discovered_ok w st targets :
  get_makefile_targets w st = (Ret targets, st) -> Forall name_ok targets.
Proof.
  unfold get_makefile_targets. unfold_m.
  destruct (isfile w _); simpl.
  - destruct (read_text w _) as [content|e]; intros E; inversion E; subst.
    + rewrite TargetPattern.findall_target_lines. apply targets_of_lines_ok.
    + constructor.
  - intros E. inversion E. constructor.
Qed.

(** X14: every name [get_makefile_targets] returns is well formed: not
    empty and made of characters from [A-Za-z0-9_-] only, whatever the
    Makefile holds. *)
Theorem discovered_names_are_well_formed w st :
  exists targets,
    get_makefile_targets w st = (Ret targets, st) /\ Forall name_ok targets.
Proof.
  destruct (targets_total w st) as [targets Ht]. exists targets.
  split; [exact Ht | exact (discovered_ok w st targets Ht)].
Qed.

Lemma bullets_dot targets :
  Forall name_ok targets -> Forall (all is_dot) (map bullet (sorted targets)).
Proof.
  intros H. apply Forall_forall. intros x Hx.
  apply in_map_iff in Hx. destruct Hx as (t & <- & Ht).
  apply (proj1 (sorted_In _ _)) in Ht.
  pose proof (proj1 (Forall_forall _ _) H t Ht) as [_ Hall].
  unfold bullet. apply all_app. split; [repeat constructor|].
  eapply Forall_impl; [|exact Hall]. apply is_name_dot.
Qed.

(** X15: when targets are discovered, the text of [list_make_targets]
    has a heading line and then one line per discovered target, a dash,
    a blank and the name, in ascending order of the names; the names
    listed are those discovered, repeated ones repeated. *)
Theorem listing_lines w st targets :
  get_makefile_targets w st = (Ret targets, st) ->
  targets <> [] ->
  exists msg,
    list_make_targets w st = (Ret msg, st) /\
    lines msg = u "Available make targets:" :: map bullet (sorted targets) /\
    Sorted (fun a b => str_leb a b = true) (sorted targets) /\
    Permutation (sorted targets) targets.
Proof.
  intros Ht Hne. eexists. unfold list_make_targets.
  rewrite (@bind_eq _ _ _ _ _ _ _ Ht).
  destruct targets as [|t ts]; [congruence|].
  split; [reflexivity|]. split; [|split; [apply sorted_sorted | apply sorted_perm]].
  change (lines (u "Available make targets:"
                 ++ NL :: join [NL] (map bullet (sorted (t :: ts))))
          = u "Available make targets:" :: map bullet (sorted (t :: ts))).
  rewrite lines_dot_nl by (repeat constructor). f_equal.
  apply lines_join.
  - intros E. apply (f_equal (@length str)) in E.
    rewrite length_map in E.
    rewrite (Permutation_length (sorted_perm (t :: ts))) in E. discriminate E.
  - apply bullets_dot. exact (discovered_ok w st _ Ht).
Qed.

Lemma listing_lines_witness :
  exists msg,
    list_make_targets (world_with test_build no_process) at_nf = (Ret msg, at_nf) /\
    lines msg = [u "Available make targets:"; u "- build"; u "- test"].
Proof.
  destruct (listing_lines (world_with test_build no_process) at_nf
              [u "test"; u "build"] eq_refl) as (msg & E & L & _).
  - discriminate.
  - exists msg. split; [exact E|]. rewrite L. reflexivity.
Defined.

(** X16: discovery goes line by line: the targets found in two texts
    put together with a newline between them are the targets of the
    first followed by the targets of the second. *)
Theorem discovery_of_joined_texts a b :
  Re.findall target_pattern (a ++ NL :: b)
  = Re.findall target_pattern a ++ Re.findall target_pattern b.
Proof.
  rewrite !TargetPattern.findall_target_lines, lines_app_nl.
  unfold targets_of_lines. apply flat_map_app.
Qed.

(** X17: a rule with prerequisites is not discovered: a line made of a
    name, a colon, white space and then anything that is neither white
    space nor the start of a comment gives no target. *)
Theorem prerequisites_hide_target name ws c r :
  all is_name name ->
  all is_space ws ->
  all is_dot (ws ++ c :: r) ->
  is_space c = false ->
  c <> HASH ->
  Re.findall target_pattern (name ++ COLON :: ws ++ c :: r) = [].
Proof.
  intros Hn Hw Hd Hc Hh.
  rewrite TargetPattern.findall_target_lines.
  assert (Hline : all is_dot (name ++ COLON :: ws ++ c :: r)).
  { apply all_app. split.
    - eapply Forall_impl; [|exact Hn]. apply is_name_dot.
    - constructor; [reflexivity | exact Hd]. }
  rewrite (lines_dot _ Hline). unfold targets_of_lines. simpl.
  rewrite app_nil_r. unfold line_target.
  rewrite (@span_all is_name name (COLON :: ws ++ c :: r) Hn) by reflexivity.
  destruct name as [|x nm]; [reflexivity|].
  rewrite N.eqb_refl.
  rewrite (@span_all is_space ws (c :: r) Hw) by exact Hc.
  simpl. destruct (N.eqb_spec c HASH); [contradiction | reflexivity].
Qed.

Lemma prerequisites_hide_target_witness :
  Re.findall target_pattern (u "test: compile") = [].
Proof.
  apply (prerequisites_hide_target (u "test") (u " ") 99%N (u "ompile")).
  - repeat constructor.
  - repeat constructor.
  - repeat constructor.
  - reflexivity.
  - discriminate.
Defined.

(** X18: [get_nextflow_docs] answers that the documentation is not
    found exactly for the topics other than [testing] and
    [contributing]. *)
Theorem docs_missing_topic topic :
  get_nextflow_docs topic = u "Documentation for '" ++ topic ++ u "' not found."
  <-> topic <> u "testing" /\ topic <> u "contributing".
Proof.
  unfold get_nextflow_docs, docs, dict_get.
  destruct (str_eqb (u "testing") topic) eqn:E1.
  - apply str_eqb_eq in E1. subst topic. split.
    + intros H. discriminate H.
    + intros [H _]. congruence.
  - destruct (str_eqb (u "contributing") topic) eqn:E2.
    + apply str_eqb_eq in E2. subst topic. split.
      * intros H. discriminate H.
      * intros [_ H]. congruence.
    + split; [|reflexivity]. intros _. split; intros ->.
      * rewrite (proj2 (str_eqb_eq _ _) eq_refl) in E1. discriminate E1.
      * rewrite (proj2 (str_eqb_eq _ _) eq_refl) in E2. discriminate E2.
Qed.

(** X19: [run_integration_tests], [run_specific_test],
    [get_nextflow_version] and [run_plugin_test] run their command
    whatever the Makefile holds: the command is not checked against the
    discovered targets; for [run_plugin_test] an empty class name is
    left out like a missing one. *)
Theorem fixed_commands w st :
  snd (run_integration_tests w st) = after_run st [u "make"; u "test"] /\
  (forall test_path,
      snd (run_specific_test w test_path st)
      = after_run st [u "./gradlew"; u "test"; u "--tests"; test_path]) /\
  snd (get_nextflow_version w st) = after_run st [u "./nextflow"; u "-version"] /\
  (forall module class_name,
      snd (run_plugin_test w module class_name st)
      = after_run st (plugin_argv module class_name)) /\
  (forall module,
      run_plugin_test w module (Some []) st = run_plugin_test w module None st) /\
  (forall module c cs,
      plugin_argv module (Some (c :: cs))
      = [u "make"; u "test"; u "module=" ++ module; u "class=" ++ c :: cs]).
Proof.
  split; [|split; [|split; [|split; [|split]]]]; intros.
  - unfold run_integration_tests, bind, try_except, run, get_dir, ret.
    destruct (subprocess_run w _ _) as [p|e]; [|reflexivity].
    destruct (negb _); reflexivity.
  - unfold run_specific_test, bind, try_except, run, get_dir, ret.
    destruct (subprocess_run w _ _) as [p|e]; [|reflexivity].
    destruct (negb _); reflexivity.
  - unfold get_nextflow_version, bind, try_except, run, get_dir, ret.
    destruct (subprocess_run w _ _) as [p|e]; [|reflexivity].
    destruct (negb _); reflexivity.
  - unfold run_plugin_test, bind, try_except, run, get_dir, ret.
    fold (plugin_argv module class_name).
    destruct (subprocess_run w _ _) as [p|e]; [|reflexivity].
    destruct (negb _); reflexivity.
  - reflexivity.
  - reflexivity.
Qed.
